(** * Registration gateway: a shallow embedding of [server.js]

    The program is one Express application with two routes.  [POST
    /api/register] runs behind a rate limiter, checks three fields of the
    JSON body, derives a salted token for the administrator account and
    issues one [createUser] call to the upstream server; [GET /api/health]
    reports the configuration.  The embedding keeps the JavaScript values the
    handler really receives (any JSON document, not only strings), the
    coercions the engine applies to them, and the effects of the handler
    (random bytes, the outbound call, the log line) as an explicit tree. *)

From Stdlib Require Import ZArith NArith Ascii String.
From stdpp Require Import gmap list strings.

Set Default Proof Using "Type".
#[local] Set Warnings "-register-all".

(** ** Strings

    A JavaScript string is a sequence of UTF-16 code units; [length] counts
    code units and a regular expression without the [u] flag reads code
    units. *)

Abbreviation jsstring := (list N).

Fixpoint lit (s : string) : jsstring :=
  match s with
  | EmptyString => []
  | String c s' => N_of_ascii c :: lit s'
  end.

(** ** Values

    [express.json()] hands the handler a parsed JSON document and axios hands
    it another one.  Numbers are IEEE doubles: the integral ones are kept
    exactly ([Int]; both zeros are [Int 0], and [Int z] for a [z] that is
    no double stands for the double nearest to it, which is what
    [JSON.parse] makes of the digits of [z]), [NaN] only arises from
    coercions, and every other double (the fractions and the infinities)
    is a value of the type [nonint], whose operations belong to the
    engine. *)

Section Values.
Context {nonint : Type}.

Inductive number :=
| NaN
| Int (z : Z)
| Other (x : nonint).

Inductive value :=
| VUndefined
| VNull
| VBool (b : bool)
| VNumber (n : number)
| VString (s : jsstring)
| VArray (elements : list value)
| VObject (props : list (jsstring * value)).
End Values.

Arguments number : clear implicits.
Arguments value : clear implicits.

(** The operations of the engine on the doubles that are not kept exactly,
    and its conversion of a string to a number. *)
Class Engine (nonint : Type) := {
  Number_toString : nonint → jsstring;
  Number_lessThan8 : nonint → bool;
  StringToNumber : jsstring → number nonint;
}.

(** What an axios call settles with: a response (status 2xx) or an error,
    which carries the response when one was received. *)
Record axios_response (nonint : Type) := {
  res_status : N;
  res_data : value nonint;
}.
Arguments res_status {nonint} _.
Arguments res_data {nonint} _.

(** The errors the [try] block can raise: a [TypeError] of the engine, which
    has no [response] property, or the rejection of the axios promise. *)
Inductive js_error (nonint : Type) :=
| TypeError
| AxiosError (message : jsstring) (response : option (axios_response nonint)).
Arguments TypeError {nonint}.
Arguments AxiosError {nonint} _ _.

Inductive result (E A : Type) :=
| Ok (a : A)
| Throw (e : E).
Arguments Ok {E A} _.
Arguments Throw {E A} _.

#[global] Instance result_ret {E} : MRet (result E) := λ A a, Ok a.
#[global] Instance result_bind {E} : MBind (result E) := λ A B f m,
  match m with
  | Ok a => f a
  | Throw e => Throw e
  end.
#[global] Instance result_fmap {E} : FMap (result E) := λ A B f m,
  match m with
  | Ok a => Ok (f a)
  | Throw e => Throw e
  end.

(** ** Doubles and their decimal form

    [Number::toString] writes the shortest decimal that reads back as the
    same double, the nearest one if there are several.  The functions below
    compute it with integers: [round] is the rounding of a positive
    fraction to a double, and a decimal of [k] digits is accepted when it
    rounds to the double at hand. *)

Module Double.
#[local] Open Scope Z_scope.

(** What a positive real rounds to: zero, the double [m * 2^e] with
    [2^52 ≤ m < 2^53 ∧ -1074 ≤ e ≤ 971] or [m < 2^52 ∧ e = -1074], or an
    infinity. *)
Inductive rounded :=
| Zero
| Finite (m e : Z)
| Overflow.

Definition rounded_eqb (a b : rounded) : bool :=
  match a, b with
  | Zero, Zero | Overflow, Overflow => true
  | Finite m e, Finite m' e' => (m =? m') && (e =? e')
  | _, _ => false
  end.

(** [p / 2^e / q] as a fraction of integers. *)
Definition scaled (p q e : Z) : Z * Z :=
  if 0 <=? e then (p, q * 2 ^ e) else (p * 2 ^ (- e), q).

(** The quotient [p / q], for [0 ≤ p] and [0 < q], rounded to the nearest
    double, ties to the even significand. *)
Definition round (p q : Z) : rounded :=
  if p <=? 0 then Zero else
  let e1 := Z.max (Z.log2 p - Z.log2 q - 53) (- 1074) in
  let e := if 2 ^ 53 <=? (scaled p q e1).1 / (scaled p q e1).2 then e1 + 1 else e1 in
  let '(n, d) := scaled p q e in
  let quo := n / d in
  let rem := n mod d in
  let m := if (d <? 2 * rem) || ((d =? 2 * rem) && Z.odd quo) then quo + 1 else quo in
  let '(m, e) := if m =? 2 ^ 53 then (2 ^ 52, e + 1) else (m, e) in
  if m =? 0 then Zero
  else if 971 <? e then Overflow
  else Finite m e.

(** The double [m * 2^e] as a fraction. *)
Definition ratio (m e : Z) : Z * Z :=
  if 0 <=? e then (m * 2 ^ e, 1) else (m, 2 ^ (- e)).

(** [s * 10^x] as a fraction. *)
Definition decimal_ratio (s x : Z) : Z * Z :=
  if 0 <=? x then (s * 10 ^ x, 1) else (s, 10 ^ (- x)).

Fixpoint digits_onto (fuel : nat) (n : Z) (acc : list Z) : list Z :=
  match fuel with
  | O => acc
  | S fuel' =>
      if n <? 10 then n :: acc else digits_onto fuel' (n / 10) (n mod 10 :: acc)
  end.

(** The decimal digits of a natural number, the most significant first. *)
Definition digits (n : Z) : list Z :=
  digits_onto (S (Z.to_nat (Z.log2 n))) n [].

(** The least [j] from [j0] on with [q ≤ p * 10^(j - j0)]. *)
Fixpoint lift (fuel : nat) (p q j : Z) : Z :=
  match fuel with
  | O => j
  | S fuel' => if q <=? p then j else lift fuel' (p * 10) q (j + 1)
  end.

(** The [n] with [10^(n-1) ≤ p / q < 10^n]. *)
Definition magnitude (p q : Z) : Z :=
  if q <=? p then Z.of_nat (length (digits (p / q))) else 1 - lift 400 p q 0.

(** The decimal [s * 10^(n-k)] of [k] digits that is nearest to [p / q]
    among those that round to [target], if there is one; of two equally
    near, the even one. *)
Definition candidate (p q : Z) (target : rounded) (n k : Z) : option (Z * Z) :=
  let x := n - k in
  let '(X, U) := if 0 <=? x then (p, q * 10 ^ x) else (p * 10 ^ (- x), q) in
  let lo := X / U in
  let hi := lo + 1 in
  let below := X mod U in
  let above := U - below in
  let ok s := let '(cp, cq) := decimal_ratio s x in rounded_eqb (round cp cq) target in
  match ok lo, ok hi with
  | true, true =>
      if below <? above then Some (lo, x)
      else if above <? below then Some (hi, x)
      else Some (if Z.even lo then lo else hi, x)
  | true, false => Some (lo, x)
  | false, true => Some (hi, x)
  | false, false => None
  end.

Fixpoint shortest_from (fuel : nat) (p q : Z) (target : rounded) (n k : Z)
  : option (Z * Z) :=
  match fuel with
  | O => None
  | S fuel' =>
      match candidate p q target n k with
      | Some c => Some c
      | None => shortest_from fuel' p q target n (k + 1)
      end
  end.

(** Trailing zeros of [s] moved into the exponent. *)
Fixpoint strip (fuel : nat) (s x : Z) : Z * Z :=
  match fuel with
  | O => (s, x)
  | S fuel' => if (s mod 10 =? 0) && (0 <? s) then strip fuel' (s / 10) (x + 1) else (s, x)
  end.

(** The shortest decimal that rounds to the double [p / q]: digits [s] and
    exponent [x], the value being [s * 10^x]. *)
Definition shortest (p q : Z) : Z * Z :=
  match shortest_from 17 p q (round p q) (magnitude p q) 1 with
  | Some (s, x) => strip 17 s x
  | None => (0, 0)
  end.

Definition digit_char (d : Z) : N := Z.to_N (48 + d).

Definition chars (n : Z) : jsstring := digit_char <$> digits n.

(** [Number::toString] of a positive finite double, from its shortest
    decimal [s * 10^x]: plain digits up to [10^21], a fraction down to
    [10^-7], the exponent form beyond. *)
Definition render (s x : Z) : jsstring :=
  let ds := chars s in
  let k := Z.of_nat (length ds) in
  let n := k + x in
  if (k <=? n) && (n <=? 21) then ds ++ replicate (Z.to_nat (n - k)) 48%N
  else if (0 <? n) && (n <=? 21) then
    take (Z.to_nat n) ds ++ lit "." ++ drop (Z.to_nat n) ds
  else if (-6 <? n) && (n <=? 0) then
    lit "0." ++ replicate (Z.to_nat (- n)) 48%N ++ ds
  else
    match ds with
    | [] => []
    | d :: rest =>
        d :: match rest with [] => [] | _ :: _ => lit "." ++ rest end
        ++ lit "e" ++ (if 0 <=? n - 1 then lit "+" else lit "-") ++ chars (Z.abs (n - 1))
    end.

(** [Number::toString] of the positive double [m * 2^e]. *)
Definition finite_to_string (m e : Z) : jsstring :=
  let '(p, q) := ratio m e in
  let '(s, x) := shortest p q in
  render s x.

Definition signed (negative : bool) (s : jsstring) : jsstring :=
  if negative then lit "-" ++ s else s.

(** [Number::toString] of the double nearest to the integer [z]. *)
Definition integer_to_string (z : Z) : jsstring :=
  match round (Z.abs z) 1 with
  | Zero => lit "0"
  | Finite m e => signed (z <? 0) (finite_to_string m e)
  | Overflow => signed (z <? 0) (lit "Infinity")
  end.

(** The doubles that are no integer: the infinities, and [± m * 2^e] with
    [e < 0] and [m] no multiple of [2^(-e)]. *)
Inductive rest :=
| Infinite (negative : bool)
| Fraction (negative : bool) (m e : Z).

Definition to_string (x : rest) : jsstring :=
  match x with
  | Infinite negative => signed negative (lit "Infinity")
  | Fraction negative m e => signed negative (finite_to_string m e)
  end.

Definition less_than_8 (x : rest) : bool :=
  match x with
  | Infinite negative => negative
  | Fraction negative m e => negative || (m <? 8 * 2 ^ (- e))
  end.
End Double.

(** ** The engine's coercions and property reads *)

Section Runtime.
Context {nonint : Type} `{!Engine nonint}.

Abbreviation number := (number nonint).
Abbreviation value := (value nonint).
Abbreviation completion := (result (js_error nonint)).

(** [!v] is [negb (ToBoolean v)]. *)
Definition ToBoolean (v : value) : bool :=
  match v with
  | VUndefined | VNull => false
  | VBool b => b
  | VNumber NaN => false
  | VNumber (Int z) => negb (z =? 0)%Z
  | VNumber (Other _) => true
  | VString [] => false
  | VString (_ :: _) => true
  | VArray _ | VObject _ => true
  end.

(** The names of the properties the program reads. *)
Inductive prop :=
| P_username | P_password | P_email | P_length
| P_subsonic_response | P_status | P_error | P_message.

Definition prop_name (p : prop) : jsstring :=
  match p with
  | P_username => lit "username"
  | P_password => lit "password"
  | P_email => lit "email"
  | P_length => lit "length"
  | P_subsonic_response => lit "subsonic-response"
  | P_status => lit "status"
  | P_error => lit "error"
  | P_message => lit "message"
  end.

Fixpoint own_property (k : jsstring) (props : list (jsstring * value)) : option value :=
  match props with
  | [] => None
  | (k', v) :: props' => if bool_decide (k = k') then Some v else own_property k props'
  end.

(** [v.p] and [v[p]] for the names of [prop]: reading a property of
    [undefined] or [null] throws; strings and arrays have a [length]; a
    parsed object has its own properties; none of the names is found on a
    prototype. *)
Definition Get (v : value) (p : prop) : completion value :=
  match v with
  | VUndefined | VNull => Throw TypeError
  | VBool _ | VNumber _ => Ok VUndefined
  | VString s =>
      match p with
      | P_length => Ok (VNumber (Int (Z.of_nat (length s))))
      | _ => Ok VUndefined
      end
  | VArray l =>
      match p with
      | P_length => Ok (VNumber (Int (Z.of_nat (length l))))
      | _ => Ok VUndefined
      end
  | VObject props => Ok (default VUndefined (own_property (prop_name p) props))
  end.

(** [v?.p] *)
Definition OptGet (v : value) (p : prop) : value :=
  match Get v p with
  | Ok w => w
  | Throw _ => VUndefined
  end.

(** [Number::toString] on the integers: the digits of [z] itself up to
    [2^53], and the shortest digits that read back as the same double
    beyond. *)
Definition decimal (z : Z) : jsstring :=
  Double.integer_to_string z.

Definition number_to_string (n : number) : jsstring :=
  match n with
  | NaN => lit "NaN"
  | Int z => decimal z
  | Other x => Number_toString x
  end.

(** [ToString].  An array joins its elements with commas, [undefined] and
    [null] elements giving the empty string.  A parsed object has no
    callable [toString] of its own: if it has a property of that name the
    conversion finds nothing to call and throws, otherwise
    [Object.prototype.toString] answers. *)
Fixpoint ToString (v : value) : completion jsstring :=
  match v with
  | VUndefined => Ok (lit "undefined")
  | VNull => Ok (lit "null")
  | VBool true => Ok (lit "true")
  | VBool false => Ok (lit "false")
  | VNumber n => Ok (number_to_string n)
  | VString s => Ok s
  | VArray l =>
      (fix join (l : list value) : completion jsstring :=
         match l with
         | [] => Ok []
         | e :: l' =>
             s ← match e with
                 | VUndefined | VNull => Ok []
                 | _ => ToString e
                 end;
             match l' with
             | [] => Ok s
             | _ :: _ => r ← join l'; Ok (s ++ lit "," ++ r)
             end
         end) l
  | VObject props =>
      match own_property (lit "toString") props with
      | Some _ => Throw TypeError
      | None => Ok (lit "[object Object]")
      end
  end.

(** [ToPrimitive]: [valueOf] of an array or a parsed object never yields a
    primitive, so both hints end in the string conversion. *)
Definition ToPrimitive (v : value) : completion value :=
  match v with
  | VArray _ | VObject _ => VString <$> ToString v
  | _ => Ok v
  end.

Definition ToNumber (v : value) : completion number :=
  p ← ToPrimitive v;
  Ok match p with
     | VUndefined => NaN
     | VNull => Int 0
     | VBool b => Int (if b then 1 else 0)
     | VNumber n => n
     | VString s => StringToNumber s
     | VArray _ | VObject _ => NaN
     end.

(** [Number::lessThan (n, 8)]; the comparison is false on [NaN]. *)
Definition lessThan8 (n : number) : bool :=
  match n with
  | NaN => false
  | Int z => (z <? 8)%Z
  | Other x => Number_lessThan8 x
  end.

(** [v < 8] *)
Definition lt8 (v : value) : completion bool :=
  n ← ToNumber v; Ok (lessThan8 n).

(** [v === s] for a string literal [s]. *)
Definition strict_eq_string (v : value) (s : jsstring) : bool :=
  match v with
  | VString t => bool_decide (t = s)
  | _ => false
  end.

(** [a || b] *)
Definition or_else (a b : value) : value :=
  if ToBoolean a then a else b.
End Runtime.

(** ** Regular expressions

    Both patterns of the program are anchored sequences of quantified
    character classes; [matcher] is the backtracking search for a split of
    the whole input, longest repetition first. *)

Record atom := {
  cls : N → bool;
  least : nat;
  most : option nat;
}.

Abbreviation regex := (list atom).

Definition may_repeat (n : nat) (most : option nat) : bool :=
  match most with
  | None => true
  | Some m => n <? m
  end.

(** The repetitions of one atom, [n] of them already read, followed by the
    rest of the pattern [k]. *)
Fixpoint repeat_then (a : atom) (k : jsstring → bool) (n : nat) (s : jsstring) : bool :=
  match s with
  | c :: s' =>
      (may_repeat n (most a) && cls a c && repeat_then a k (S n) s')
      || ((least a <=? n) && k s)
  | [] => (least a <=? n) && k []
  end.

Fixpoint matcher (r : regex) (s : jsstring) {struct r} : bool :=
  match r with
  | [] => match s with [] => true | _ :: _ => false end
  | a :: r' => repeat_then a (matcher r') 0 s
  end.

(** What a split may give to an atom that already has [n] repetitions. *)
Definition fits (n : nat) (s1 : jsstring) (most : option nat) : Prop :=
  match most with
  | None => True
  | Some m => s1 = [] ∨ n + length s1 ≤ m
  end.

Definition in_range (lo hi : string) (c : N) : bool :=
  match lit lo, lit hi with
  | [l], [h] => (l <=? c)%N && (c <=? h)%N
  | _, _ => false
  end.

Definition is_char (x : string) (c : N) : bool :=
  match lit x with
  | [y] => (c =? y)%N
  | _ => false
  end.

(** [\s]: WhiteSpace and LineTerminator of ECMAScript. *)
Definition is_space (c : N) : bool :=
  ((9 <=? c) && (c <=? 13) || (c =? 32) || (c =? 0xa0) || (c =? 0x1680)
   || (0x2000 <=? c) && (c <=? 0x200a) || (c =? 0x2028) || (c =? 0x2029)
   || (c =? 0x202f) || (c =? 0x205f) || (c =? 0x3000) || (c =? 0xfeff))%N.

(** [[a-zA-Z0-9_-]] *)
Definition username_char (c : N) : bool :=
  in_range "a" "z" c || in_range "A" "Z" c || in_range "0" "9" c
  || is_char "_" c || is_char "-" c.

(** [[^\s@]] *)
Definition email_char (c : N) : bool :=
  negb (is_space c || is_char "@" c).

Definition one (x : string) : atom :=
  {| cls := is_char x; least := 1; most := Some 1 |}.
Definition plus (f : N → bool) : atom :=
  {| cls := f; least := 1; most := None |}.
Definition between (f : N → bool) (lo hi : nat) : atom :=
  {| cls := f; least := lo; most := Some hi |}.

(** [/^[a-zA-Z0-9_-]{3,20}$/] *)
Definition username_regex : regex := [between username_char 3 20].

(** [/^[^\s@]+@[^\s@]+\.[^\s@]+$/] *)
Definition emailRegex : regex :=
  [plus email_char; one "@"; plus email_char; one "."; plus email_char].

(** [re.test(v)]: the argument is converted to a string first. *)
Definition test {nonint} `{!Engine nonint} (r : regex) (v : value nonint)
  : result (js_error nonint) bool :=
  s ← ToString v; Ok (matcher r s).

(** ** Bytes, hexadecimal and UTF-8 *)

Definition hex_digit (d : N) : N :=
  (if d <? 10 then 48 + d else 87 + d)%N.

(** [buf.toString('hex')] and [digest('hex')]: two lowercase digits a byte. *)
Definition hex (bytes : list N) : jsstring :=
  flat_map (λ b, [hex_digit (b / 16 mod 16); hex_digit (b mod 16)])%N bytes.

(** The characters of such a string. *)
Definition lower_hex (c : N) : Prop :=
  (48 ≤ c ≤ 57)%N ∨ (97 ≤ c ≤ 102)%N.

(** The bytes [hash.update] feeds to the digest: the UTF-8 encoding of the
    string, a surrogate pair giving one four-byte sequence and a lone
    surrogate the replacement character. *)
Fixpoint utf8 (s : jsstring) : list N :=
  match s with
  | [] => []
  | c :: s' =>
      (if c <? 0x80 then c :: utf8 s'
       else if c <? 0x800 then [0xc0 + c / 64; 0x80 + c mod 64] ++ utf8 s'
       else if (0xd800 <=? c) && (c <? 0xdc00) then
         match s' with
         | d :: s'' =>
             if (0xdc00 <=? d) && (d <? 0xe000) then
               let cp := 0x10000 + (c - 0xd800) * 0x400 + (d - 0xdc00) in
               [0xf0 + cp / 0x40000; 0x80 + cp / 0x1000 mod 64;
                0x80 + cp / 64 mod 64; 0x80 + cp mod 64] ++ utf8 s''
             else [0xef; 0xbf; 0xbd] ++ utf8 s'
         | [] => [0xef; 0xbf; 0xbd]
         end
       else if (0xdc00 <=? c) && (c <? 0xe000) then [0xef; 0xbf; 0xbd] ++ utf8 s'
       else [0xe0 + c / 0x1000 mod 16; 0x80 + c / 64 mod 64; 0x80 + c mod 64] ++ utf8 s')%N
  end.

(** ** MD5 (RFC 1321), the digest behind [crypto.createHash('md5')] *)

Module MD5.
Local Open Scope N_scope.

Definition add32 (x y : N) : N := (x + y) mod 2 ^ 32.
Definition not32 (x : N) : N := N.lxor x 0xffffffff.
Definition rotl32 (x c : N) : N :=
  N.lor (N.shiftl x c mod 2 ^ 32) (N.shiftr x (32 - c)).

Definition shifts : list N :=
  [7; 12; 17; 22; 7; 12; 17; 22; 7; 12; 17; 22; 7; 12; 17; 22;
   5; 9; 14; 20; 5; 9; 14; 20; 5; 9; 14; 20; 5; 9; 14; 20;
   4; 11; 16; 23; 4; 11; 16; 23; 4; 11; 16; 23; 4; 11; 16; 23;
   6; 10; 15; 21; 6; 10; 15; 21; 6; 10; 15; 21; 6; 10; 15; 21].

Definition sines : list N :=
  [0xd76aa478; 0xe8c7b756; 0x242070db; 0xc1bdceee; 0xf57c0faf; 0x4787c62a; 0xa8304613; 0xfd469501;
   0x698098d8; 0x8b44f7af; 0xffff5bb1; 0x895cd7be; 0x6b901122; 0xfd987193; 0xa679438e; 0x49b40821;
   0xf61e2562; 0xc040b340; 0x265e5a51; 0xe9b6c7aa; 0xd62f105d; 0x02441453; 0xd8a1e681; 0xe7d3fbc8;
   0x21e1cde6; 0xc33707d6; 0xf4d50d87; 0x455a14ed; 0xa9e3e905; 0xfcefa3f8; 0x676f02d9; 0x8d2a4c8a;
   0xfffa3942; 0x8771f681; 0x6d9d6122; 0xfde5380c; 0xa4beea44; 0x4bdecfa9; 0xf6bb4b60; 0xbebfbc70;
   0x289b7ec6; 0xeaa127fa; 0xd4ef3085; 0x04881d05; 0xd9d4d039; 0xe6db99e5; 0x1fa27cf8; 0xc4ac5665;
   0xf4292244; 0x432aff97; 0xab9423a7; 0xfc93a039; 0x655b59c3; 0x8f0ccc92; 0xffeff47d; 0x85845dd1;
   0x6fa87e4f; 0xfe2ce6e0; 0xa3014314; 0x4e0811a1; 0xf7537e82; 0xbd3af235; 0x2ad7d2bb; 0xeb86d391].

(** little-endian bytes of a word, and back *)
Fixpoint to_bytes (n : nat) (w : N) : list N :=
  match n with
  | O => []
  | S n' => w mod 256 :: to_bytes n' (w / 256)
  end.

Fixpoint of_bytes (bs : list N) : N :=
  match bs with
  | [] => 0
  | b :: bs' => b mod 256 + 256 * of_bytes bs'
  end.

Definition padding (len : nat) : list N :=
  [0x80] ++ replicate ((119 - len mod 64) mod 64) 0
  ++ to_bytes 8 (8 * N.of_nat len).

Definition word (block : list N) (g : nat) : N :=
  of_bytes (take 4 (drop (4 * g) block)).

Definition round (block : list N) (st : N * N * N * N) (i : nat) : N * N * N * N :=
  let '(a, b, c, d) := st in
  let '(f, g) :=
    if (i <? 16)%nat then (N.lor (N.land b c) (N.land (not32 b) d), i)
    else if (i <? 32)%nat then (N.lor (N.land d b) (N.land (not32 d) c), (5 * i + 1) mod 16)%nat
    else if (i <? 48)%nat then (N.lxor (N.lxor b c) d, (3 * i + 5) mod 16)%nat
    else (N.lxor c (N.lor b (not32 d)), (7 * i) mod 16)%nat in
  let f' := add32 (add32 (add32 f a) (sines !!! i)) (word block g) in
  (d, add32 b (rotl32 f' (shifts !!! i)), b, c).

Definition compress (st : N * N * N * N) (block : list N) : N * N * N * N :=
  let '(a0, b0, c0, d0) := st in
  let '(a, b, c, d) := foldl (round block) st (seq 0 64) in
  (add32 a0 a, add32 b0 b, add32 c0 c, add32 d0 d).

Fixpoint blocks (n : nat) (bs : list N) : list (list N) :=
  match n with
  | O => []
  | S n' => take 64 bs :: blocks n' (drop 64 bs)
  end.

Definition digest (msg : list N) : list N :=
  let padded := msg ++ padding (length msg) in
  let '(a, b, c, d) :=
    foldl compress (0x67452301, 0xefcdab89, 0x98badcfe, 0x10325476)
          (blocks (length padded / 64) padded) in
  to_bytes 4 a ++ to_bytes 4 b ++ to_bytes 4 c ++ to_bytes 4 d.
End MD5.

(** [crypto.createHash('md5').update(s).digest('hex')] *)
Definition md5_hex (s : jsstring) : jsstring := hex (MD5.digest (utf8 s)).

(** ** Configuration

    The three settings are read from [process.env]: each is a string or
    [undefined]. *)

Record config := {
  NAVIDROME_URL : option jsstring;
  ADMIN_USER : option jsstring;
  ADMIN_PASSWORD : option jsstring;
}.

(** A setting used as a value, and inside a template literal or a string
    concatenation. *)
Definition env_value {nonint} (x : option jsstring) : value nonint :=
  match x with
  | Some s => VString s
  | None => VUndefined
  end.

Definition env_string (x : option jsstring) : jsstring :=
  default (lit "undefined") x.

(** ** Effects

    The handler draws random bytes, awaits one axios call and writes to the
    error log.  A program is the tree of these requests; [run] answers them
    from a [world]. *)

Module createUser.
(** The [params] object of the outbound call. *)
Record params (nonint : Type) := {
  u : value nonint;
  t : jsstring;
  s : jsstring;
  v : jsstring;
  c : jsstring;
  f : jsstring;
  username : value nonint;
  password : value nonint;
  email : value nonint;
  adminRole : bool;
  downloadRole : bool;
  uploadRole : bool;
  playlistRole : bool;
  shareRole : bool;
  commentRole : bool;
  podcastRole : bool;
  streamRole : bool;
  jukeboxRole : bool;
  settingsRole : bool;
  coverArtRole : bool;
}.
Arguments u {_} _. Arguments t {_} _. Arguments s {_} _. Arguments v {_} _.
Arguments c {_} _. Arguments f {_} _. Arguments username {_} _.
Arguments password {_} _. Arguments email {_} _. Arguments adminRole {_} _.
Arguments downloadRole {_} _. Arguments uploadRole {_} _.
Arguments playlistRole {_} _. Arguments shareRole {_} _.
Arguments commentRole {_} _. Arguments podcastRole {_} _.
Arguments streamRole {_} _. Arguments jukeboxRole {_} _.
Arguments settingsRole {_} _. Arguments coverArtRole {_} _.
End createUser.

(** The second argument of [console.error]: [error.response?.data ||
    error.message]. *)
Inductive logged (nonint : Type) :=
| LogData (data : value nonint)
| LogMessage (e : js_error nonint).
Arguments LogData {nonint} _.
Arguments LogMessage {nonint} _.

Inductive prog (nonint A : Type) :=
| Ret (a : A)
| RandomBytes (n : nat) (k : list N → prog nonint A)
| AxiosGet (url : jsstring) (params : createUser.params nonint)
    (k : result (js_error nonint) (axios_response nonint) → prog nonint A)
| ConsoleError (label : jsstring) (what : logged nonint) (k : prog nonint A).
Arguments Ret {nonint A} _.
Arguments RandomBytes {nonint A} _ _.
Arguments AxiosGet {nonint A} _ _ _.
Arguments ConsoleError {nonint A} _ _ _.

Fixpoint prog_bind {nonint A B} (g : A → prog nonint B) (p : prog nonint A) : prog nonint B :=
  match p with
  | Ret a => g a
  | RandomBytes n k => RandomBytes n (λ bytes, prog_bind g (k bytes))
  | AxiosGet url params k => AxiosGet url params (λ settled, prog_bind g (k settled))
  | ConsoleError label what k => ConsoleError label what (prog_bind g k)
  end.

#[global] Instance prog_mret {nonint} : MRet (prog nonint) := λ A a, Ret a.
#[global] Instance prog_mbind {nonint} : MBind (prog nonint) := λ A B g p, prog_bind g p.

Inductive event (nonint : Type) :=
| Drew (n : nat) (bytes : list N)
| Called (url : jsstring) (params : createUser.params nonint)
    (settled : result (js_error nonint) (axios_response nonint))
| Logged (label : jsstring) (what : logged nonint).
Arguments Drew {nonint} _ _.
Arguments Called {nonint} _ _ _.
Arguments Logged {nonint} _ _.

(** The world: an endless supply of random bytes, and the upstream server's
    answer to the n-th outbound call of the process. *)
Record world (nonint : Type) := {
  entropy : nat → N;
  upstream : nat → jsstring → createUser.params nonint
             → result (js_error nonint) (axios_response nonint);
}.
Arguments entropy {nonint} _ _.
Arguments upstream {nonint} _ _ _ _.

(** How much of the world a process has used. *)
Record usage := {
  drawn : nat;
  calls : nat;
}.

(** The next [n] random bytes. *)
Definition draw {nonint} (w : world nonint) (st : usage) (n : nat) : list N :=
  (λ i, entropy w i mod 256)%N <$> seq (drawn st) n.

Fixpoint run {nonint A} (w : world nonint) (p : prog nonint A) (st : usage)
  : A * usage * list (event nonint) :=
  match p with
  | Ret a => (a, st, [])
  | RandomBytes n k =>
      let bytes := draw w st n in
      let '(a, st', tr) := run w (k bytes) {| drawn := drawn st + n; calls := calls st |} in
      (a, st', Drew n bytes :: tr)
  | AxiosGet url params k =>
      let settled := upstream w (calls st) url params in
      let '(a, st', tr) := run w (k settled) {| drawn := drawn st; calls := S (calls st) |} in
      (a, st', Called url params settled :: tr)
  | ConsoleError label what k =>
      let '(a, st', tr) := run w k st in
      (a, st', Logged label what :: tr)
  end.

(** The outbound calls of a trace. *)
Fixpoint outbound {nonint} (tr : list (event nonint))
  : list (jsstring * createUser.params nonint) :=
  match tr with
  | [] => []
  | Called url params _ :: tr' => (url, params) :: outbound tr'
  | _ :: tr' => outbound tr'
  end.

(** ** The application *)

Record response (nonint : Type) := {
  status : N;
  body : value nonint;
}.
Arguments status {nonint} _.
Arguments body {nonint} _.

Record auth := {
  salt : jsstring;
  token : jsstring;
}.

Section Application.
Context {nonint : Type} `{!Engine nonint}.

Abbreviation value := (value nonint).
Abbreviation completion := (result (js_error nonint)).
Abbreviation response := (response nonint).
Abbreviation prog := (prog nonint).

(** [res.status(code).json(body)]; [res.json(body)] alone answers 200. *)
Definition send (code : N) (props : list (jsstring * value)) : response :=
  {| status := code; body := VObject props |}.

(** [{ success: false, error }] *)
Definition failure (error : value) : list (jsstring * value) :=
  [(lit "success", VBool false); (lit "error", error)].

(** [generateSubsonicAuth] *)
Definition generateSubsonicAuth (password : option jsstring) : prog auth :=
  RandomBytes 16 (λ bytes,
    let salt := hex bytes in
    let token := md5_hex (env_string password ++ salt) in
    Ret {| salt := salt; token := token |}).

(** The outcome of the checks at the head of the handler: an early
    [return] with a response, or the three fields. *)
Inductive checked :=
| Reject (r : response)
| Accept (username password email : value).

(** Lines 43-76 of the handler. *)
Definition validation (req_body : value) : completion checked :=
  username ← Get req_body P_username;
  password ← Get req_body P_password;
  email ← Get req_body P_email;
  if negb (ToBoolean username) || negb (ToBoolean password) || negb (ToBoolean email) then
    Ok (Reject (send 400 (failure (VString (lit "Username, password, and email are required")))))
  else
    name_ok ← test username_regex username;
    if negb name_ok then
      Ok (Reject (send 400 (failure (VString
        (lit "Username must be 3-20 characters (letters, numbers, underscore, hyphen only)")))))
    else
      len ← Get password P_length;
      short ← lt8 len;
      if (short : bool) then
        Ok (Reject (send 400 (failure (VString (lit "Password must be at least 8 characters")))))
      else
        email_ok ← test emailRegex email;
        if negb email_ok then
          Ok (Reject (send 400 (failure (VString (lit "Invalid email format")))))
        else Ok (Accept username password email).

(** The [params] literal, lines 84-105. *)
Definition params (cfg : config) (a : auth) (username password email : value)
  : createUser.params nonint :=
  {| createUser.u := env_value (ADMIN_USER cfg);
     createUser.t := token a;
     createUser.s := salt a;
     createUser.v := lit "1.16.1";
     createUser.c := lit "NavidromeRegistration";
     createUser.f := lit "json";
     createUser.username := username;
     createUser.password := password;
     createUser.email := email;
     createUser.adminRole := false;
     createUser.downloadRole := true;
     createUser.uploadRole := true;
     createUser.playlistRole := true;
     createUser.shareRole := true;
     createUser.commentRole := true;
     createUser.podcastRole := true;
     createUser.streamRole := true;
     createUser.jukeboxRole := false;
     createUser.settingsRole := false;
     createUser.coverArtRole := true |}.

(** Line 82 *)
Definition createUserUrl (cfg : config) : jsstring :=
  env_string (NAVIDROME_URL cfg) ++ lit "/rest/createUser".

(** Lines 109-122: the reading of the upstream reply. *)
Definition check_response (username : value) (data : value) : completion response :=
  sr ← Get data P_subsonic_response;
  st ← Get sr P_status;
  if strict_eq_string st (lit "ok") then
    Ok (send 200 [(lit "success", VBool true);
                  (lit "message", VString (lit "Account created successfully"));
                  (lit "username", username)])
  else
    sr' ← Get data P_subsonic_response;
    error ← Get sr' P_error;
    message ← Get error P_message;
    Ok (send 400 (failure (or_else message (VString (lit "Failed to create user"))))).

(** The body of the [try] block. *)
Definition register_try (cfg : config) (req_body : value) : prog (completion response) :=
  match validation req_body with
  | Throw e => Ret (Throw e)
  | Ok (Reject r) => Ret (Ok r)
  | Ok (Accept username password email) =>
      a ← generateSubsonicAuth (ADMIN_PASSWORD cfg);
      AxiosGet (createUserUrl cfg) (params cfg a username password email) (λ settled,
        match settled with
        | Throw e => Ret (Throw e)
        | Ok r => Ret (check_response username (res_data r))
        end)
  end.

(** [error.response?.data] and [error.response.data] *)
Definition error_data_opt (e : js_error nonint) : value :=
  match e with
  | AxiosError _ (Some r) => res_data r
  | _ => VUndefined
  end.

Definition error_data (e : js_error nonint) : completion value :=
  match e with
  | AxiosError _ (Some r) => Ok (res_data r)
  | _ => Throw TypeError
  end.

(** The [catch] block. *)
Definition register_catch (e : js_error nonint) : prog (completion response) :=
  let data := error_data_opt e in
  ConsoleError (lit "Registration error:")
    (if ToBoolean data then LogData data else LogMessage e)
    (if ToBoolean (OptGet (OptGet data P_subsonic_response) P_error) then
       Ret (data' ← error_data e;
            sr ← Get data' P_subsonic_response;
            subsonicError ← Get sr P_error;
            message ← Get subsonicError P_message;
            Ok (send 400 (failure (or_else message (VString (lit "User creation failed"))))))
     else
       Ret (Ok (send 500 (failure (VString (lit "Internal server error")))))).

(** The handler of [POST /api/register]. *)
Definition register_handler (cfg : config) (req_body : value) : prog (completion response) :=
  r ← register_try cfg req_body;
  match r with
  | Ok resp => Ret (Ok resp)
  | Throw e => register_catch e
  end.

(** The handler of [GET /api/health]. *)
Definition health_handler (cfg : config) : prog response :=
  Ret (send 200 [(lit "status", VString (lit "ok"));
                 (lit "message", VString (lit "Registration service running"));
                 (lit "navidromeUrl", env_value (NAVIDROME_URL cfg))]).
End Application.

(** ** The rate limiter

    [registerLimiter] is configured in the program (lines 22-29); the
    middleware itself is the stock package. *)

Record limiter (nonint : Type) := {
  windowMs : N;
  max : nat;
  message : value nonint;
}.
Arguments windowMs {nonint} _.
Arguments max {nonint} _.
Arguments message {nonint} _.

Definition registerLimiter {nonint} : limiter nonint :=
  {| windowMs := 15 * 60 * 1000;
     max := 5;
     message := VObject [(lit "success", VBool false);
                         (lit "error", VString
                            (lit "Too many registration attempts. Please try again later."))] |}.

(** The counter the limiter keeps for a key. *)
Record client := {
  totalHits : nat;
  resetTime : N;
}.

(** Modelled from the spec: the limiter middleware is the [express-rate-limit]
    package, which is not in the repository.  Sections 4.5 and 9 of the
    specification describe it as a fixed window per key: a map from key to a
    counter with the time its window ends; a hit inside the window increments
    the counter, a hit after the window has ended starts a new window. *)
Definition increment {nonint} (l : limiter nonint) (now : N) (key : jsstring)
    (store : gmap jsstring client) : gmap jsstring client * client :=
  let c :=
    match store !! key with
    | Some c =>
        if (now <? resetTime c)%N
        then {| totalHits := S (totalHits c); resetTime := resetTime c |}
        else {| totalHits := 1; resetTime := (now + windowMs l)%N |}
    | None => {| totalHits := 1; resetTime := (now + windowMs l)%N |}
    end in
  (<[key := c]> store, c).

(** Modelled from the spec: the limiter lets a request pass while the counter
    of its key, this request included, does not exceed [max]. *)
Definition within_limit {nonint} (l : limiter nonint) (c : client) : bool :=
  totalHits c <=? max l.

(** What the client of [POST /api/register] gets: the limiter's payload, or
    whatever the handler settles with. *)
Inductive outcome (nonint : Type) :=
| Limited (payload : value nonint)
| Handled (r : result (js_error nonint) (response nonint)).
Arguments Limited {nonint} _.
Arguments Handled {nonint} _.

Record arrival (nonint : Type) := {
  at_time : N;
  from_key : jsstring;
  req_body : value nonint;
}.
Arguments at_time {nonint} _.
Arguments from_key {nonint} _.
Arguments req_body {nonint} _.

Record server := {
  store : gmap jsstring client;
  used : usage;
}.

Section Server.
Context {nonint : Type} `{!Engine nonint}.

(** [app.post('/api/register', registerLimiter, handler)] *)
Definition register_route (cfg : config) (a : arrival nonint) (hits : gmap jsstring client)
  : gmap jsstring client * prog nonint (outcome nonint) :=
  let '(hits', c) := increment (@registerLimiter nonint) (at_time a) (from_key a) hits in
  if within_limit (@registerLimiter nonint) c
  then (hits', r ← register_handler cfg (req_body a); Ret (Handled r))
  else (hits', Ret (Limited (message registerLimiter))).

Definition serve (cfg : config) (w : world nonint) (sv : server) (a : arrival nonint)
  : server * (outcome nonint * list (event nonint)) :=
  let '(hits', p) := register_route cfg a (store sv) in
  let '(o, used', tr) := run w p (used sv) in
  ({| store := hits'; used := used' |}, (o, tr)).

Fixpoint serve_all (cfg : config) (w : world nonint) (sv : server) (l : list (arrival nonint))
  : list (outcome nonint * list (event nonint)) :=
  match l with
  | [] => []
  | a :: l' =>
      let '(sv', out) := serve cfg w sv a in
      out :: serve_all cfg w sv' l'
  end.
End Server.

(** ** Counting what the limiter lets through *)



(** ** Reading a parsed document by its members *)

(** The member [p] of a parsed object. *)
Definition member {nonint} (v : value nonint) (p : prop) : option (value nonint) :=
  match v with
  | VObject props => own_property (prop_name p) props
  | _ => None
  end.

(** The error object an axios error carries: the [error] member of the
    [subsonic-response] member of the body of the response it came with. *)
Definition embedded_error {nonint} (err : js_error nonint) : option (value nonint) :=
  match err with
  | AxiosError _ (Some r) =>
      sr ← member (res_data r) P_subsonic_response; member sr P_error
  | _ => None
  end.

(** The answer to an error, as the specification has it: the message of the
    embedded error object with status 400 when there is one, the generic
    message of that case when the object has no message, and the generic
    internal error with status 500 otherwise. *)
Definition answer_to_error {nonint} (err : js_error nonint) : response nonint :=
  match embedded_error err with
  | Some found =>
      if ToBoolean found then
        send 400 (failure (or_else (default VUndefined (member found P_message))
                                   (VString (lit "User creation failed"))))
      else send 500 (failure (VString (lit "Internal server error")))
  | None => send 500 (failure (VString (lit "Internal server error")))
  end.

(** ** The validator's rules, in the words of the specification *)

Section Rules.
Context {nonint : Type} `{!Engine nonint}.

(** A field that is absent or empty. *)
Definition blank (v : value nonint) : Prop :=
  v = VUndefined ∨ v = VNull ∨ v = VString [].

(** A field as the data model has it: a string, when it is there at all. *)
Definition textual (v : value nonint) : Prop :=
  v = VUndefined ∨ v = VNull ∨ ∃ s, v = VString s.

Definition ascii_letter (c : N) : Prop :=
  (65 ≤ c ≤ 90)%N ∨ (97 ≤ c ≤ 122)%N.

Definition ascii_digit (c : N) : Prop :=
  (48 ≤ c ≤ 57)%N.

(** 3-20 characters of ASCII letters, digits, underscore, hyphen *)
Definition username_shape (s : jsstring) : Prop :=
  3 ≤ length s ≤ 20
  ∧ Forall (λ c, ascii_letter c ∨ ascii_digit c ∨ c = 95%N ∨ c = 45%N) s.

(** [local@domain.tld]: three parts, none empty, none with white space or
    an at sign *)
Definition email_shape (s : jsstring) : Prop :=
  ∃ local domain tld,
    s = local ++ lit "@" ++ domain ++ lit "." ++ tld
    ∧ local ≠ [] ∧ domain ≠ [] ∧ tld ≠ []
    ∧ Forall (λ c, is_space c = false ∧ c ≠ 64%N) (local ++ domain ++ tld).

Definition username_rule (v : value nonint) : Prop :=
  ∃ s, v = VString s ∧ username_shape s.

Definition password_rule (v : value nonint) : Prop :=
  ∃ s, v = VString s ∧ 8 ≤ length s.

Definition email_rule (v : value nonint) : Prop :=
  ∃ s, v = VString s ∧ email_shape s.

(** The endpoint answers 400 with the message and the process has touched
    nothing: no random bytes, no outbound call, no log line. *)
Definition rejected (cfg : config) (w : world nonint) (st : usage)
    (body : value nonint) (msg : string) : Prop :=
  run w (register_handler cfg body) st
  = (Ok (send 400 (failure (VString (lit msg)))), st, []).

(** The rules in order, the first failure deciding the answer. *)
Definition first_failure_wins (cfg : config) (w : world nonint) (st : usage)
    (body : value nonint) : Prop :=
  ∀ u p e,
    Get body P_username = Ok u → Get body P_password = Ok p → Get body P_email = Ok e →
    (blank u ∨ blank p ∨ blank e →
     rejected cfg w st body "Username, password, and email are required")
    ∧ (¬ (blank u ∨ blank p ∨ blank e) → ¬ username_rule u →
       rejected cfg w st body
         "Username must be 3-20 characters (letters, numbers, underscore, hyphen only)")
    ∧ (¬ (blank u ∨ blank p ∨ blank e) → username_rule u → ¬ password_rule p →
       rejected cfg w st body "Password must be at least 8 characters")
    ∧ (¬ (blank u ∨ blank p ∨ blank e) → username_rule u → password_rule p →
       ¬ email_rule e →
       rejected cfg w st body "Invalid email format").

(** The pair the handler derives when it starts at [st], the call it then
    makes and what the upstream server settles it with. *)
Definition credentials (cfg : config) (w : world nonint) (st : usage) : auth :=
  {| salt := hex (draw w st 16);
     token := md5_hex (env_string (ADMIN_PASSWORD cfg) ++ hex (draw w st 16)) |}.

Definition settled (cfg : config) (w : world nonint) (st : usage)
    (u p e : value nonint) : result (js_error nonint) (axios_response nonint) :=
  upstream w (calls st) (createUserUrl cfg) (params cfg (credentials cfg w st) u p e).

Definition after_call (st : usage) : usage :=
  {| drawn := drawn st + 16; calls := S (calls st) |}.

(** The freshness of the pair in the words of the specification: of two
    attempts that one process handles one after the other, no call of the
    first and call of the second share their salt and token. *)
Definition pairs_never_shared (cfg : config) (w : world nonint) (st : usage)
    (req1 req2 : value nonint) : Prop :=
  ∀ call1 call2,
    call1 ∈ outbound (run w (register_handler cfg req1) st).2 →
    call2 ∈ outbound (run w (register_handler cfg req2)
                        (run w (register_handler cfg req1) st).1.2).2 →
    (createUser.s call1.2, createUser.t call1.2)
    ≠ (createUser.s call2.2, createUser.t call2.2).
End Rules.

(** ** An engine for executing the model

    The doubles outside [Int] are those of [Double.rest], printed and
    compared with [8] exactly.  [StringToNumber] follows the grammar of
    StringNumericLiteral (white space, a sign, digits with a fraction and
    an exponent, [Infinity], or a radix prefix and digits) and rounds what
    the string spells to the nearest double.  The theorems hold for every
    engine; this one runs them on samples. *)

Fixpoint trim_start (s : jsstring) : jsstring :=
  match s with
  | c :: s' => if is_space c then trim_start s' else s
  | [] => []
  end.

Definition trim (s : jsstring) : jsstring :=
  reverse (trim_start (reverse (trim_start s))).

Module Literal.
#[local] Open Scope Z_scope.

(** What a string spells, sign apart: no number, an infinity, or the
    fraction [p / q]. *)
Inductive literal :=
| NotANumber
| Infinity
| Magnitude (p q : Z).

Definition digit_value (radix : Z) (c : N) : option Z :=
  d ← (if in_range "0" "9" c then Some (Z.of_N c - 48)
       else if in_range "a" "z" c then Some (Z.of_N c - 87)
       else if in_range "A" "Z" c then Some (Z.of_N c - 55)
       else None);
  if d <? radix then Some d else None.

(** The number the digits of [s] spell after [acc], if all of [s] is digits. *)
Fixpoint numeral (radix acc : Z) (s : jsstring) : option Z :=
  match s with
  | [] => Some acc
  | c :: s' => d ← digit_value radix c; numeral radix (acc * radix + d) s'
  end.

(** The decimal digits [s] starts with, and what follows them. *)
Fixpoint span_digits (s : jsstring) : jsstring * jsstring :=
  match s with
  | c :: s' =>
      if in_range "0" "9" c
      then let '(ds, r) := span_digits s' in (c :: ds, r)
      else ([], s)
  | [] => ([], [])
  end.

(** ExponentPart, or nothing. *)
Definition exponent (s : jsstring) : option Z :=
  match s with
  | [] => Some 0
  | c :: s' =>
      if is_char "e" c || is_char "E" c then
        match s' with
        | [] => None
        | c' :: s'' =>
            if is_char "-" c' then
              match s'' with [] => None | _ :: _ => Z.opp <$> numeral 10 0 s'' end
            else if is_char "+" c' then
              match s'' with [] => None | _ :: _ => numeral 10 0 s'' end
            else numeral 10 0 s'
        end
      else None
  end.

(** StrUnsignedDecimalLiteral.  A literal beyond [10^400] is an infinity
    and one below [10^-400] is zero whatever its digits. *)
Definition unsigned_decimal (s : jsstring) : literal :=
  if bool_decide (s = lit "Infinity") then Infinity else
  let '(ip, r1) := span_digits s in
  let '(fp, r2) :=
    match r1 with
    | c :: r => if is_char "." c then span_digits r else ([], r1)
    | [] => ([], [])
    end in
  match ip ++ fp with
  | [] => NotANumber
  | ds =>
      match numeral 10 0 ds, exponent r2 with
      | Some d, Some e =>
          let x := e - Z.of_nat (length fp) in
          if d =? 0 then Magnitude 0 1
          else if 400 <? x then Infinity
          else if x + Z.of_nat (length ds) <? - 400 then Magnitude 0 1
          else let '(p, q) := Double.decimal_ratio d x in Magnitude p q
      | _, _ => NotANumber
      end
  end.

(** NonDecimalIntegerLiteral: [0x], [0o] or [0b] and digits of that radix. *)
Definition radix_of (c : N) : option Z :=
  if is_char "x" c || is_char "X" c then Some 16
  else if is_char "o" c || is_char "O" c then Some 8
  else if is_char "b" c || is_char "B" c then Some 2
  else None.

Definition prefixed (s : jsstring) : option literal :=
  match s with
  | c0 :: c1 :: ds =>
      if is_char "0" c0 then
        radix ← radix_of c1;
        Some match ds with
             | [] => NotANumber
             | _ :: _ => from_option (λ n, Magnitude n 1) NotANumber (numeral radix 0 ds)
             end
      else None
  | _ => None
  end.

(** The double a literal is rounded to. *)
Definition to_number (negative : bool) (l : literal) : number Double.rest :=
  match l with
  | NotANumber => NaN
  | Infinity => Other (Double.Infinite negative)
  | Magnitude p q =>
      match Double.round p q with
      | Double.Zero => Int 0
      | Double.Overflow => Other (Double.Infinite negative)
      | Double.Finite m e =>
          let sign z := if negative then - z else z in
          if 0 <=? e then Int (sign (m * 2 ^ e))
          else if m mod 2 ^ (- e) =? 0 then Int (sign (m / 2 ^ (- e)))
          else Other (Double.Fraction negative m e)
      end
  end.

(** [StringToNumber]: white space trimmed, the empty string is [0]. *)
Definition string_to_number (s : jsstring) : number Double.rest :=
  match trim s with
  | [] => Int 0
  | c :: s' =>
      match prefixed (c :: s') with
      | Some l => to_number false l
      | None =>
          if is_char "-" c then to_number true (unsigned_decimal s')
          else if is_char "+" c then to_number false (unsigned_decimal s')
          else to_number false (unsigned_decimal (c :: s'))
      end
  end.
End Literal.

#[global] Instance double_engine : Engine Double.rest := {|
  Number_toString := Double.to_string;
  Number_lessThan8 := Double.less_than_8;
  StringToNumber := Literal.string_to_number;
|}.

(** ** Sample requests and worlds *)

Definition text {nonint} (s : string) : value nonint := VString (lit s).

Definition registration {nonint} (username password email : value nonint) : value nonint :=
  VObject [(lit "username", username); (lit "password", password); (lit "email", email)].

Definition subsonic {nonint} (props : list (jsstring * value nonint)) : value nonint :=
  VObject [(lit "subsonic-response", VObject props)].

Definition sample_config : config :=
  {| NAVIDROME_URL := Some (lit "http://navidrome:4533");
     ADMIN_USER := Some (lit "admin");
     ADMIN_PASSWORD := Some (lit "secret") |}.

(** A world whose upstream server settles every call the same way. *)
Definition constant_world (answer : result (js_error Double.rest) (axios_response Double.rest))
  : world Double.rest :=
  {| entropy := λ i, N.of_nat (7 * i + 3); upstream := λ _ _ _, answer |}.

Definition replies (data : value Double.rest) : world Double.rest :=
  constant_world (Ok {| res_status := 200; res_data := data |}).

Definition idle : usage := {| drawn := 0; calls := 0 |}.

(** A request that meets every rule, and one whose password is a number. *)
Definition alice : value Double.rest :=
  registration (text "alice") (text "correct horse") (text "alice@example.org").

Definition numeric_password : value Double.rest :=
  registration (text "alice") (VNumber (Int 1234567)) (text "alice@example.org").

Definition ok_reply : value Double.rest := subsonic [(lit "status", text "ok")].

Definition failed_reply : value Double.rest := subsonic [(lit "status", text "failed")].

Definition refused : world Double.rest :=
  constant_world (Throw (AxiosError (lit "connect ECONNREFUSED 127.0.0.1:4533") None)).

(** A first request and six more from the same address, a minute apart, the
    last two with a body that would not pass the validator. *)
Definition burst : list (arrival Double.rest) :=
  (λ i, {| at_time := 60000 * N.of_nat i;
           from_key := lit "203.0.113.7";
           req_body := if i <? 5 then alice else VObject [] |}) <$> seq 1 6.

Definition first_arrival : arrival Double.rest :=
  {| at_time := 0; from_key := lit "203.0.113.7"; req_body := alice |}.

Definition fresh_server : server := {| store := ∅; used := idle |}.

(** ** Start-up and the container's health check

    [process.env] is a map from names to strings.  Lines 12-19 and 153 of
    [server.js] read it; the [HEALTHCHECK] of the Dockerfile asks the health
    route for its status.  What [app.listen] does with the port it is given
    (it refuses a string that spells no port, and the start-up message is
    written only once the socket is bound) is the platform's and is not
    modelled. *)

(** Lines 17-19 *)
Definition read_config (env : gmap jsstring jsstring) : config :=
  {| NAVIDROME_URL := env !! lit "NAVIDROME_URL";
     ADMIN_USER := env !! lit "NAVIDROME_ADMIN_USER";
     ADMIN_PASSWORD := env !! lit "NAVIDROME_ADMIN_PASSWORD" |}.

(** [process.env.FRONTEND_URL || '*'], the [origin] handed to [cors] *)
Definition cors_origin {nonint : Type} (env : gmap jsstring jsstring) : value nonint :=
  or_else (env_value (env !! lit "FRONTEND_URL")) (VString (lit "*")).

(** [process.env.PORT || 3001] *)
Definition PORT {nonint : Type} (env : gmap jsstring jsstring) : value nonint :=
  or_else (env_value (env !! lit "PORT")) (VNumber (Int 3001)).

(** Dockerfile, [HEALTHCHECK]: [process.exit(r.statusCode === 200 ? 0 : 1)] *)
Definition healthcheck_exit (statusCode : N) : N :=
  if (statusCode =? 200)%N then 0%N else 1%N.

(** ** What a trace and an answer show *)

(** The lines written to the error log. *)
Fixpoint log_lines {nonint : Type} (tr : list (event nonint)) : list (logged nonint) :=
  match tr with
  | [] => []
  | Logged _ what :: tr' => what :: log_lines tr'
  | _ :: tr' => log_lines tr'
  end.

(** The random bytes drawn. *)
Fixpoint draws {nonint : Type} (tr : list (event nonint)) : list (list N) :=
  match tr with
  | [] => []
  | Drew _ bytes :: tr' => bytes :: draws tr'
  | _ :: tr' => draws tr'
  end.

(** The shape every answer of the registration handler has: status 200 with
    [success: true], or status 400 or 500 with [success: false] and an
    [error] that is not empty. *)
Definition answer_shape {nonint : Type} (r : response nonint) : Prop :=
  ∃ props,
    body r = VObject props
    ∧ ((status r = 200%N ∧ own_property (lit "success") props = Some (VBool true))
       ∨ ((status r = 400%N ∨ status r = 500%N)
          ∧ own_property (lit "success") props = Some (VBool false)
          ∧ ∃ error, own_property (lit "error") props = Some error
                     ∧ ToBoolean error = true)).

(** ** More samples *)

(** A password that is a list of eight items, and a username that cannot be
    rendered. *)
Definition list_password : value Double.rest :=
  registration (text "alice") (VArray (replicate 8 VNull)) (text "alice@example.org").

Definition unprintable : value Double.rest :=
  registration (VObject [(lit "toString", VNull)]) (text "correct horse")
               (text "alice@example.org").

(** Replies: a duplicate username as the upstream server reports it, and a
    page of text from a proxy. *)
Definition duplicate_reply : value Double.rest :=
  subsonic [(lit "status", text "failed");
            (lit "error", VObject [(lit "code", VNumber (Int 0));
                                   (lit "message", text "Username already exists")])].

Definition gateway_page : value Double.rest := text "<html>502 Bad Gateway</html>".

(** The request of [alice] with two members more, one of them first. *)
Definition grasping : value Double.rest :=
  VObject [(lit "adminRole", VBool true);
           (lit "username", text "alice");
           (lit "password", text "correct horse");
           (lit "email", text "alice@example.org");
           (lit "settingsRole", VBool true)].

(** A request from another user, and a world whose random source gives the
    same byte for ever. *)
Definition bob : value Double.rest :=
  registration (text "bob") (text "battery staple") (text "bob@example.org").

Definition stuck_source : world Double.rest :=
  {| entropy := λ _, 7%N;
     upstream := λ _ _ _, Ok {| res_status := 200; res_data := ok_reply |} |}.

Definition other_config : config :=
  {| NAVIDROME_URL := Some (lit "https://music.example.org");
     ADMIN_USER := Some (lit "root");
     ADMIN_PASSWORD := Some (lit "another secret") |}.

(** * Properties *)

(** ** The digest on the test suite of RFC 1321, and the encodings *)

Example md5_empty : md5_hex [] = lit "d41d8cd98f00b204e9800998ecf8427e".
Proof. vm_compute. reflexivity. Qed.

Example md5_a : md5_hex (lit "a") = lit "0cc175b9c0f1b6a831c399e269772661".
Proof. vm_compute. reflexivity. Qed.

Example md5_abc : md5_hex (lit "abc") = lit "900150983cd24fb0d6963f7d28e17f72".
Proof. vm_compute. reflexivity. Qed.

Example md5_message_digest :
  md5_hex (lit "message digest") = lit "f96b697d7cb7938d525a2f31aaf161d0".
Proof. vm_compute. reflexivity. Qed.

Example md5_alphabet :
  md5_hex (lit "abcdefghijklmnopqrstuvwxyz") = lit "c3fcd3d76192e4007dfb496cca67e13b".
Proof. vm_compute. reflexivity. Qed.

Example md5_alphanumeric :
  md5_hex (lit "ABCDEFGHIJKLMNOPQRSTUVWXYZabcdefghijklmnopqrstuvwxyz0123456789")
  = lit "d174ab98d277d9f5a5611c2c9f419d9f".
Proof. vm_compute. reflexivity. Qed.

Example md5_eighty_digits :
  md5_hex (lit "12345678901234567890123456789012345678901234567890123456789012345678901234567890")
  = lit "57edf4a22be3c955ac49da2e2107b67a".
Proof. vm_compute. reflexivity. Qed.

(** "é€" followed by the surrogate pair of U+1F600, then a lone surrogate. *)
Example utf8_sample :
  utf8 [0xe9; 0x20ac; 0xd83d; 0xde00; 0xd800]%N
  = [195; 169; 226; 130; 172; 240; 159; 152; 128; 239; 191; 189]%N.
Proof. reflexivity. Qed.

Example hex_sample : hex [0; 10; 171; 255]%N = lit "000aabff".
Proof. reflexivity. Qed.

Example join_sample :
  ToString (VArray [VNumber (Int 1); VNull; VArray [text "x"; VNumber (Int (-2))]]
            : value Double.rest)
  = Ok (lit "1,,x,-2").
Proof. reflexivity. Qed.

Example email_samples :
  matcher emailRegex <$> [lit "a@b.co"; lit "a@b.c.d"; lit "a@b"; lit "a@b."; lit "a@.b";
                           lit "a b@c.d"; lit "a@b@c.d"; lit "@b.c"]
  = [true; true; false; false; false; false; false; false].
Proof. reflexivity. Qed.

Example username_samples :
  matcher username_regex <$> [lit "al"; lit "bob"; lit "a_b-C9"; lit "bob!";
                              lit "aaaaaaaaaaaaaaaaaaaa"; lit "aaaaaaaaaaaaaaaaaaaaa"]
  = [false; true; true; false; true; false].
Proof. reflexivity. Qed.

(** ** Doubles: what the engine prints and reads *)

(** The integers up to [2^53] print as they are; beyond, the digits are
    the shortest that read back as the same double, and from [10^21] on
    the exponent form is used. *)
Example decimal_samples :
  decimal <$> [0; 7; -42; 3001; 1234567; 9007199254740991; 9007199254740993;
               12345678901234567168; 123456789012345678901; 10 ^ 21; - 2 ^ 70;
               2 ^ 1024]%Z
  = lit <$> ["0"; "7"; "-42"; "3001"; "1234567"; "9007199254740991"; "9007199254740992";
             "12345678901234567000"; "123456789012345680000"; "1e+21";
             "-1.1805916207174113e+21"; "Infinity"]%string.
Proof. vm_compute. reflexivity. Qed.

(** Strings that spell a number, read and printed again. *)
Example StringToNumber_samples :
  (λ s, number_to_string (StringToNumber (lit s)))
  <$> ["7.5"; "0x7"; "7e0"; ".5"; "-Infinity"; " 12 "; "-0"; "5."; "1e21"; "0.1";
       "0.000001"; "1e-7"; "0.30000000000000004"; "9007199254740993"; "5e-324";
       "1.7976931348623159e308"; "0b101"; "0o17"; "+.5e1"]%string
  = lit <$> ["7.5"; "7"; "7"; "0.5"; "-Infinity"; "12"; "0"; "5"; "1e+21"; "0.1";
             "0.000001"; "1e-7"; "0.30000000000000004"; "9007199254740992"; "5e-324";
             "Infinity"; "5"; "15"; "5"]%string.
Proof. vm_compute. reflexivity. Qed.

(** Strings that spell no number. *)
Example StringToNumber_NaN :
  (λ s, StringToNumber (lit s))
  <$> ["abc"; "12px"; "."; "+"; "1e"; "0x"; "-0x10"; "1_000"; "infinity"; "1 2"; "e5"]%string
  = replicate 11 (NaN : number Double.rest).
Proof. vm_compute. reflexivity. Qed.

(** The comparison with [8] next to the doubles around it. *)
Example lessThan8_samples :
  (λ s, lessThan8 (StringToNumber (lit s)))
  <$> ["7.5"; "7.999999999999999"; "7.9999999999999999"; "8"; "8.000000000000001";
       "-Infinity"; "Infinity"; "0x7"; "abc"]%string
  = [true; true; false; false; false; true; false; true; false].
Proof. vm_compute. reflexivity. Qed.

(** A password that is an object is measured by its [length] member, read
    as a number: "7.5" and "0x7" are below 8, "8.0" is not. *)
Example password_length_is_read_as_a_number :
  (λ l, validation (registration (text "alice") (VObject [(lit "length", text l)])
                      (text "alice@example.org") : value Double.rest))
  <$> ["7.5"; "0x7"; "8.0"]%string
  = [Ok (Reject (send 400 (failure (VString (lit "Password must be at least 8 characters")))));
     Ok (Reject (send 400 (failure (VString (lit "Password must be at least 8 characters")))));
     Ok (Accept (text "alice") (VObject [(lit "length", text "8.0")])
           (text "alice@example.org"))].
Proof. vm_compute. reflexivity. Qed.

(** ** The matcher finds exactly the splits of the input *)

Lemma repeat_then_spec a k s n :
  repeat_then a k n s = true ↔
  ∃ s1 s2, s = s1 ++ s2 ∧ Forall (λ c, cls a c = true) s1
           ∧ least a ≤ n + length s1 ∧ fits n s1 (most a) ∧ k s2 = true.
Proof.
  revert n. induction s as [|c s IH]; intros n; simpl.
  - rewrite andb_true_iff, Nat.leb_le. split.
    + intros [Hn Hk]. exists [], []. simpl. repeat split; auto; try lia.
      unfold fits. destruct (most a); auto.
    + intros (s1 & s2 & Heq & _ & Hn & _ & Hk).
      symmetry in Heq. apply app_eq_nil in Heq as [-> ->]. simpl in Hn. split; [lia | done].
  - rewrite orb_true_iff, !andb_true_iff, Nat.leb_le, IH. split.
    + intros [[[Hrep Hc] (s1 & s2 & -> & Hall & Hn & Hfit & Hk)] | [Hn Hk]].
      * exists (c :: s1), s2. simpl. repeat split; auto; try lia.
        unfold fits, may_repeat in *. destruct (most a) as [m|]; [|done].
        right. apply Nat.ltb_lt in Hrep. simpl. destruct Hfit as [-> | ?]; simpl; lia.
      * exists [], (c :: s). simpl. repeat split; auto; try lia.
        unfold fits. destruct (most a); auto.
    + intros (s1 & s2 & Heq & Hall & Hn & Hfit & Hk). destruct s1 as [|c' s1]; simpl in *.
      * right. subst s2. split; [lia | done].
      * left. injection Heq as -> ->. inversion Hall; subst.
        split; [split; [|done]|].
        -- unfold fits, may_repeat in *. destruct (most a) as [m|]; [|done].
           apply Nat.ltb_lt. destruct Hfit as [? | ?]; [done | simpl in *; lia].
        -- exists s1, s2. repeat split; auto; try lia.
           unfold fits in *. destruct (most a) as [m|]; [|done].
           right. destruct Hfit as [? | ?]; [done | simpl in *; lia].
Qed.

Lemma matcher_nil s : matcher [] s = true ↔ s = [].
Proof. destruct s; simpl; split; intros; done. Qed.

Lemma matcher_cons a r s :
  matcher (a :: r) s = true ↔
  ∃ s1 s2, s = s1 ++ s2 ∧ Forall (λ c, cls a c = true) s1
           ∧ least a ≤ length s1 ∧ fits 0 s1 (most a) ∧ matcher r s2 = true.
Proof. simpl. apply repeat_then_spec. Qed.

Lemma username_char_spec c :
  username_char c = true ↔ ascii_letter c ∨ ascii_digit c ∨ c = 95%N ∨ c = 45%N.
Proof.
  unfold username_char, in_range, is_char, ascii_letter, ascii_digit. cbn [lit].
  change (N_of_ascii "a") with 97%N. change (N_of_ascii "z") with 122%N.
  change (N_of_ascii "A") with 65%N. change (N_of_ascii "Z") with 90%N.
  change (N_of_ascii "0") with 48%N. change (N_of_ascii "9") with 57%N.
  change (N_of_ascii "_") with 95%N. change (N_of_ascii "-") with 45%N.
  rewrite !orb_true_iff, !andb_true_iff, !N.leb_le, !N.eqb_eq. lia.
Qed.

Lemma email_char_spec c :
  email_char c = true ↔ is_space c = false ∧ c ≠ 64%N.
Proof.
  unfold email_char, is_char. cbn [lit]. change (N_of_ascii "@") with 64%N.
  rewrite negb_true_iff, orb_false_iff, N.eqb_neq. done.
Qed.

Lemma one_char_spec (x : ascii) s1 :
  Forall (λ c, cls (one (String x EmptyString)) c = true) s1
  ∧ least (one (String x EmptyString)) ≤ length s1
  ∧ fits 0 s1 (most (one (String x EmptyString)))
  ↔ s1 = lit (String x EmptyString).
Proof.
  simpl. unfold is_char. cbn [lit]. split.
  - intros (Hall & Hlen & Hfit). destruct s1 as [|c [|c' s1]]; simpl in *; try lia.
    + inversion Hall; subst. f_equal. by apply N.eqb_eq.
    + destruct Hfit as [? | ?]; [done | lia].
  - intros ->. simpl. repeat split; [|lia|right; lia].
    constructor; [apply N.eqb_refl | constructor].
Qed.

Lemma plus_intro f r s1 s2 :
  s1 ≠ [] → Forall (λ c, f c = true) s1 → matcher r s2 = true →
  matcher (plus f :: r) (s1 ++ s2) = true.
Proof.
  intros Hne Hall Hr. apply matcher_cons. exists s1, s2.
  repeat split; auto. destruct s1; simpl; [done | lia].
Qed.

Lemma one_intro (x : ascii) r s :
  matcher r s = true → matcher (one (String x EmptyString) :: r) (lit (String x EmptyString) ++ s) = true.
Proof.
  intros Hr. apply matcher_cons. exists (lit (String x EmptyString)), s.
  split; [done|]. pose proof (proj2 (one_char_spec x _) eq_refl) as (? & ? & ?). auto.
Qed.

Theorem matcher_username s :
  matcher username_regex s = true ↔ username_shape s.
Proof.
  unfold username_regex, username_shape. rewrite matcher_cons. simpl. split.
  - intros (s1 & s2 & -> & Hall & Hlen & Hfit & ->%matcher_nil).
    rewrite app_nil_r. split.
    + destruct Hfit as [-> | ?]; simpl in *; lia.
    + eapply Forall_impl; [exact Hall|]. intros c Hc. by apply username_char_spec.
  - intros [Hlen Hall]. exists s, []. rewrite app_nil_r. repeat split; try lia.
    eapply Forall_impl; [exact Hall|]. intros c Hc. by apply username_char_spec.
Qed.

Theorem matcher_email s :
  matcher emailRegex s = true ↔ email_shape s.
Proof.
  unfold emailRegex, email_shape. split.
  - intros H. apply matcher_cons in H as (l & r1 & -> & Hl & Hl1 & _ & H).
    apply matcher_cons in H as (a & r2 & -> & Ha & Ha1 & Ha2 & H).
    assert (a = lit "@") as -> by (apply one_char_spec; auto).
    apply matcher_cons in H as (d & r3 & -> & Hd & Hd1 & _ & H).
    apply matcher_cons in H as (o & r4 & -> & Ho & Ho1 & Ho2 & H).
    assert (o = lit ".") as -> by (apply one_char_spec; auto).
    apply matcher_cons in H as (t & r5 & -> & Ht & Ht1 & _ & ->%matcher_nil).
    rewrite app_nil_r. exists l, d, t. simpl in *.
    repeat split; try (intros ->; simpl in *; lia).
    rewrite !Forall_app. repeat split;
      (eapply Forall_impl; [eassumption|]; intros c Hc; by apply email_char_spec).
  - intros (l & d & t & -> & Hl & Hd & Ht & Hall).
    rewrite !Forall_app in Hall. destruct Hall as (Hal & Had & Hat).
    assert (∀ x : jsstring, Forall (λ c, is_space c = false ∧ c ≠ 64%N) x →
                            Forall (λ c, email_char c = true) x) as Hec
      by (intros x Hx; eapply Forall_impl; [exact Hx|]; intros c Hc; by apply email_char_spec).
    apply plus_intro; auto. apply (one_intro "@"), plus_intro; auto.
    apply (one_intro "."). rewrite <- (app_nil_r t). apply plus_intro; auto.
Qed.

(** ** Running the handler *)

Section Handler.
Context {nonint : Type} `{!Engine nonint}.
Implicit Types (cfg : config) (w : world nonint) (st : usage).
Implicit Types (body u p e : value nonint).

Lemma run_bind {A B} w (m : prog nonint A) (g : A → prog nonint B) st :
  run w (m ≫= g) st =
  let '(a, st1, tr1) := run w m st in
  let '(b, st2, tr2) := run w (g a) st1 in
  (b, st2, tr1 ++ tr2).
Proof.
  unfold mbind, prog_mbind. revert st.
  induction m as [a | n k IH | url ps k IH | label what k IH]; intros st; simpl.
  - by destruct (run w (g a) st) as [[b st2] tr2].
  - rewrite IH. destruct (run w (k _) _) as [[a st1] tr1].
    by destruct (run w (g a) st1) as [[b st2] tr2].
  - rewrite IH. destruct (run w (k _) _) as [[a st1] tr1].
    by destruct (run w (g a) st1) as [[b st2] tr2].
  - rewrite IH. destruct (run w k st) as [[a st1] tr1].
    by destruct (run w (g a) st1) as [[b st2] tr2].
Qed.

(** The validator hands on the fields of the body, untouched. *)
Lemma validation_accept body u p e :
  validation body = Ok (Accept u p e) →
  Get body P_username = Ok u ∧ Get body P_password = Ok p ∧ Get body P_email = Ok e.
Proof.
  unfold validation. intros H.
  destruct (Get body P_username) as [u'|]; [|done].
  destruct (Get body P_password) as [p'|]; [|done].
  destruct (Get body P_email) as [e'|]; [|done].
  simpl in H.
  destruct (negb (ToBoolean u') || negb (ToBoolean p') || negb (ToBoolean e')); [done|].
  destruct (test username_regex u') as [[]|]; simpl in H; try done.
  destruct (Get p' P_length) as [len|]; simpl in H; [|done].
  destruct (lt8 len) as [[]|]; simpl in H; try done.
  destruct (test emailRegex e') as [[]|]; simpl in H; try done.
  by inversion H.
Qed.

Lemma run_reject cfg w st body r :
  validation body = Ok (Reject r) →
  run w (register_handler cfg body) st = (Ok r, st, []).
Proof.
  intros H. unfold register_handler. rewrite run_bind.
  unfold register_try. rewrite H. reflexivity.
Qed.

(** Without a parsed body the destructuring throws and the answer is the
    generic one. *)
Lemma absent_body_answers_500 cfg w st :
  run w (register_handler cfg VUndefined) st
  = (Ok (send 500 (failure (VString (lit "Internal server error")))), st,
     [Logged (lit "Registration error:") (LogMessage TypeError)]).
Proof. reflexivity. Qed.

(** What the [catch] block makes of an error. *)
Lemma run_catch w st err :
  run w (register_catch err) st =
  (let found := OptGet (OptGet (error_data_opt err) P_subsonic_response) P_error in
   if ToBoolean found then
     data ← error_data err;
     sr ← Get data P_subsonic_response;
     subsonicError ← Get sr P_error;
     message ← Get subsonicError P_message;
     Ok (send 400 (failure (or_else message (VString (lit "User creation failed")))))
   else Ok (send 500 (failure (VString (lit "Internal server error")))),
   st,
   [Logged (lit "Registration error:")
      (if ToBoolean (error_data_opt err) then LogData (error_data_opt err)
       else LogMessage err)]).
Proof.
  unfold register_catch. cbn [run].
  by destruct (ToBoolean (OptGet (OptGet (error_data_opt err) P_subsonic_response) P_error)).
Qed.

Lemma run_catch_TypeError w st :
  run w (register_catch TypeError) st =
  (Ok (send 500 (failure (VString (lit "Internal server error")))), st,
   [Logged (lit "Registration error:") (LogMessage TypeError)]).
Proof. reflexivity. Qed.

(** A request that passes the validator: sixteen random bytes, one call,
    and then the reply is read or the error caught. *)
Lemma run_accept cfg w st body u p e :
  validation body = Ok (Accept u p e) →
  run w (register_handler cfg body) st =
  let tr0 := [Drew 16 (draw w st 16);
              Called (createUserUrl cfg) (params cfg (credentials cfg w st) u p e)
                     (settled cfg w st u p e)] in
  match settled cfg w st u p e ≫= (λ r, check_response u (res_data r)) with
  | Ok resp => (Ok resp, after_call st, tr0)
  | Throw err =>
      let '(o, st', tr) := run w (register_catch err) (after_call st) in
      (o, st', tr0 ++ tr)
  end.
Proof.
  intros H. unfold register_handler. rewrite run_bind.
  unfold register_try. rewrite H. unfold generateSubsonicAuth.
  cbn [mbind prog_mbind prog_bind run calls drawn]. fold (credentials cfg w st).
  fold (after_call st). unfold settled.
  destruct (upstream w (calls st) (createUserUrl cfg) _) as [r|err];
    cbn [mbind result_bind run app].
  - destruct (check_response u (res_data r)) as [resp|err]; cbn [run app]; [done|].
    by destruct (run w (register_catch err) (after_call st)) as [[o st'] tr].
  - by destruct (run w (register_catch err) (after_call st)) as [[o st'] tr].
Qed.
End Handler.

(** ** The validator *)

Section Validator.
Context {nonint : Type} `{!Engine nonint}.
Implicit Types (cfg : config) (w : world nonint) (st : usage).
Implicit Types (body u p e v : value nonint).

Lemma lt8_length (n : nat) :
  lt8 (VNumber (Int (Z.of_nat n)) : value nonint) = Ok (n <? 8).
Proof.
  unfold lt8, ToNumber. simpl. f_equal.
  destruct (Nat.ltb_spec n 8); [apply Z.ltb_lt | apply Z.ltb_ge]; lia.
Qed.

(** On three non-empty strings the validator is the three tests in turn. *)
Lemma validation_text body su sp se :
  Get body P_username = Ok (VString su) →
  Get body P_password = Ok (VString sp) →
  Get body P_email = Ok (VString se) →
  su ≠ [] → sp ≠ [] → se ≠ [] →
  validation body =
  Ok (if negb (matcher username_regex su) then
        Reject (send 400 (failure (VString (lit
          "Username must be 3-20 characters (letters, numbers, underscore, hyphen only)"))))
      else if length sp <? 8 then
        Reject (send 400 (failure (VString (lit "Password must be at least 8 characters"))))
      else if negb (matcher emailRegex se) then
        Reject (send 400 (failure (VString (lit "Invalid email format"))))
      else Accept (VString su) (VString sp) (VString se)).
Proof.
  intros Gu Gp Ge Hu Hp He. unfold validation. rewrite Gu, Gp, Ge.
  destruct su as [|cu su]; [done|]. destruct sp as [|cp sp]; [done|].
  destruct se as [|ce se]; [done|].
  unfold test. cbn [mbind result_bind ToBoolean ToString negb orb].
  destruct (matcher username_regex (cu :: su)); cbn [negb]; [|done].
  cbn [Get mbind result_bind]. rewrite lt8_length. cbn [mbind result_bind].
  destruct (length (cp :: sp) <? 8); [done|].
  by destruct (matcher emailRegex (ce :: se)).
Qed.

Lemma textual_not_blank v :
  textual v → ¬ blank v → ∃ s, v = VString s ∧ s ≠ [].
Proof.
  intros [-> | [-> | [s ->]]] Hnb.
  - destruct Hnb. by left.
  - destruct Hnb. right. by left.
  - exists s. split; [done|]. intros ->. destruct Hnb. right. by right.
Qed.

Lemma validation_blank body u p e :
  Get body P_username = Ok u → Get body P_password = Ok p → Get body P_email = Ok e →
  blank u ∨ blank p ∨ blank e →
  validation body =
  Ok (Reject (send 400 (failure (VString (lit "Username, password, and email are required"))))).
Proof.
  intros Gu Gp Ge Hb. unfold validation. rewrite Gu, Gp, Ge. cbn [mbind result_bind].
  assert (negb (ToBoolean u) || negb (ToBoolean p) || negb (ToBoolean e) = true) as ->; [|done].
  rewrite !orb_true_iff.
  destruct Hb as [Hb | [Hb | Hb]]; [left; left | left; right | right];
    by destruct Hb as [-> | [-> | ->]].
Qed.

(** C1, as amended: on a request whose three fields are each absent,
    [null] or a string, the rules are applied in order and the first one
    that fails decides the answer: presence of all three fields, then the
    shape of the username (3 to 20 ASCII letters, digits, underscores and
    hyphens), then the length of the password (at least 8), then the shape
    of the address ([local@domain.tld]).  The answer is then status 400
    with the message of that rule, and the process has made no outbound
    call (nor drawn random bytes, nor logged). *)
Theorem validator_first_failure_wins cfg w st body :
  (∀ v, Get body P_username = Ok v → textual v) →
  (∀ v, Get body P_password = Ok v → textual v) →
  (∀ v, Get body P_email = Ok v → textual v) →
  first_failure_wins cfg w st body.
Proof.
  intros Tu Tp Te u p e Gu Gp Ge.
  specialize (Tu u Gu). specialize (Tp p Gp). specialize (Te e Ge).
  split; [|split; [|split]].
  - intros Hb. apply run_reject. by eapply validation_blank.
  - intros Hnb Hrule. apply run_reject.
    destruct (textual_not_blank u Tu) as (su & -> & Hsu); [tauto|].
    destruct (textual_not_blank p Tp) as (sp & -> & Hsp); [tauto|].
    destruct (textual_not_blank e Te) as (se & -> & Hse); [tauto|].
    rewrite (validation_text body su sp se) by done.
    destruct (matcher username_regex su) eqn:Hm; [|done].
    destruct Hrule. exists su. split; [done|]. by apply matcher_username.
  - intros Hnb (su & -> & Hshape) Hrule. apply run_reject.
    destruct (textual_not_blank p Tp) as (sp & -> & Hsp); [tauto|].
    destruct (textual_not_blank e Te) as (se & -> & Hse); [tauto|].
    assert (su ≠ []) as Hsu by (intros ->; destruct Hshape as [Hlen _]; simpl in Hlen; lia).
    rewrite (validation_text body su sp se) by done.
    apply matcher_username in Hshape. rewrite Hshape. cbn [negb].
    destruct (Nat.ltb_spec (length sp) 8) as [Hlt | Hge]; [done|].
    destruct Hrule. by exists sp.
  - intros Hnb (su & -> & Hshape) (sp & -> & Hlen) Hrule. apply run_reject.
    destruct (textual_not_blank e Te) as (se & -> & Hse); [tauto|].
    assert (su ≠ []) as Hsu by (intros ->; destruct Hshape as [Hl _]; simpl in Hl; lia).
    assert (sp ≠ []) as Hsp by (intros ->; simpl in Hlen; lia).
    rewrite (validation_text body su sp se) by done.
    apply matcher_username in Hshape. rewrite Hshape. cbn [negb].
    destruct (Nat.ltb_spec (length sp) 8) as [Hlt | Hge]; [lia|].
    destruct (matcher emailRegex se) eqn:Hm; [|done].
    destruct Hrule. exists se. split; [done|]. by apply matcher_email.
Qed.

(** On three strings that meet every rule the validator lets the request
    through. *)
Lemma validation_passes body su sp se :
  Get body P_username = Ok (VString su) →
  Get body P_password = Ok (VString sp) →
  Get body P_email = Ok (VString se) →
  username_shape su → 8 ≤ length sp → email_shape se →
  validation body = Ok (Accept (VString su) (VString sp) (VString se)).
Proof.
  intros Gu Gp Ge Hu Hp He.
  rewrite (validation_text body su sp se); try done.
  - apply matcher_username in Hu. apply matcher_email in He. rewrite Hu, He. cbn [negb].
    by destruct (Nat.ltb_spec (length sp) 8) as [Hlt | Hge]; [lia|].
  - intros ->. destruct Hu as [Hl _]. simpl in Hl. lia.
  - intros ->. simpl in Hp. lia.
  - intros ->. destruct He as (l & d & t & Heq & Hl & _). by destruct l.
Qed.

Lemma outbound_accept cfg w st body u p e :
  validation body = Ok (Accept u p e) →
  outbound (run w (register_handler cfg body) st).2
  = [(createUserUrl cfg, params cfg (credentials cfg w st) u p e)].
Proof.
  intros H. rewrite (run_accept cfg w st body u p e H).
  destruct (settled cfg w st u p e ≫= _) as [resp|err]; [done|].
  rewrite run_catch. reflexivity.
Qed.

(** C10: there is a request whose password is a truthy value that is no
    string, the number 1234567: the presence check passes, the value has no
    [length], so that [length < 8] is false and the length check does not
    reject it; the validator accepts the request and the number is handed
    to the upstream server as the password, although it is seven characters
    long when rendered. *)
Theorem numeric_password_is_forwarded cfg w st :
  let password : value nonint := VNumber (Int 1234567) in
  let body := registration (text "alice") password (text "alice@example.org") in
  ToBoolean password = true
  ∧ Get password P_length = Ok VUndefined
  ∧ lt8 (VUndefined : value nonint) = Ok false
  ∧ (∃ rendered, ToString password = Ok rendered ∧ length rendered = 7)
  ∧ validation body = Ok (Accept (text "alice") password (text "alice@example.org"))
  ∧ ∃ ps, outbound (run w (register_handler cfg body) st).2 = [(createUserUrl cfg, ps)]
          ∧ createUser.password ps = password.
Proof.
  intros password body.
  assert (validation body = Ok (Accept (text "alice") password (text "alice@example.org")))
    as Hv by reflexivity.
  repeat split; try reflexivity.
  - exists (lit "1234567"). split; reflexivity.
  - eexists. split; [by apply outbound_accept|]. reflexivity.
Qed.
End Validator.

(** ** Hexadecimal strings and the credential pair *)

Lemma hex_digit_lower d : (d < 16)%N → lower_hex (hex_digit d).
Proof.
  intros Hd. unfold lower_hex, hex_digit.
  destruct (N.ltb_spec d 10); lia.
Qed.

Lemma hex_digit_inj d1 d2 :
  (d1 < 16)%N → (d2 < 16)%N → hex_digit d1 = hex_digit d2 → d1 = d2.
Proof.
  unfold hex_digit. intros H1 H2.
  destruct (N.ltb_spec d1 10), (N.ltb_spec d2 10); lia.
Qed.

Lemma hex_length bytes : length (hex bytes) = 2 * length bytes.
Proof. induction bytes as [|b bytes IH]; simpl; [done | lia]. Qed.

Lemma hex_lower bytes : Forall lower_hex (hex bytes).
Proof.
  induction bytes as [|b bytes IH]; simpl; [constructor|].
  constructor; [|constructor; [|exact IH]]; apply hex_digit_lower; by apply N.mod_lt.
Qed.

Lemma hex_inj bs1 bs2 :
  Forall (λ b, (b < 256)%N) bs1 → Forall (λ b, (b < 256)%N) bs2 →
  hex bs1 = hex bs2 → bs1 = bs2.
Proof.
  intros H1. revert bs2. induction H1 as [|b1 bs1 Hb1 _ IH]; intros bs2 H2 Heq.
  - destruct bs2; [done | discriminate Heq].
  - destruct H2 as [|b2 bs2 Hb2 H2]; [discriminate Heq|].
    simpl in Heq. injection Heq as Hhi Hlo Hrest.
    apply hex_digit_inj in Hhi; [|by apply N.mod_lt..].
    apply hex_digit_inj in Hlo; [|by apply N.mod_lt..].
    f_equal; [|by apply IH].
    rewrite (N.mod_small (b1 / 16) 16) in Hhi
      by (apply N.Div0.div_lt_upper_bound; lia).
    rewrite (N.mod_small (b2 / 16) 16) in Hhi
      by (apply N.Div0.div_lt_upper_bound; lia).
    rewrite (N.div_mod b1 16), (N.div_mod b2 16) by done. congruence.
Qed.

Lemma to_bytes_length n x : length (MD5.to_bytes n x) = n.
Proof. revert x. induction n as [|n IH]; intros x; simpl; [done | by rewrite IH]. Qed.

Lemma digest_length msg : length (MD5.digest msg) = 16.
Proof.
  unfold MD5.digest.
  destruct (foldl MD5.compress _ _) as [[[a b] c] d].
  rewrite !length_app, !to_bytes_length. done.
Qed.

Lemma draw_length {nonint} (w : world nonint) st n : length (draw w st n) = n.
Proof. unfold draw. by rewrite length_fmap, length_seq. Qed.

Lemma draw_bytes {nonint} (w : world nonint) st n :
  Forall (λ b, (b < 256)%N) (draw w st n).
Proof.
  unfold draw. apply Forall_fmap, Forall_forall. intros i _. simpl.
  by apply N.mod_lt.
Qed.

Section Encoder.
Context {nonint : Type} `{!Engine nonint}.

(** C5: given the admin password, the encoder draws 16 random bytes from
    [crypto.randomBytes] and returns the pair whose salt is their hex
    encoding, 32 lowercase hex characters, and whose token is the lowercase
    hex encoding of the MD5 digest of the password followed by the salt. *)
Theorem generateSubsonicAuth_pair (w : world nonint) (st : usage) (adminPassword : jsstring) :
  ∃ a bytes,
    run w (generateSubsonicAuth (Some adminPassword)) st
    = (a, {| drawn := drawn st + 16; calls := calls st |}, [Drew 16 bytes])
    ∧ bytes = draw w st 16
    ∧ length bytes = 16 ∧ Forall (λ b, (b < 256)%N) bytes
    ∧ salt a = hex bytes
    ∧ length (salt a) = 32 ∧ Forall lower_hex (salt a)
    ∧ token a = hex (MD5.digest (utf8 (adminPassword ++ salt a)))
    ∧ length (token a) = 32 ∧ Forall lower_hex (token a).
Proof.
  eexists _, _. split; [reflexivity|]. cbn [salt token env_string default].
  split; [reflexivity|]. split; [apply draw_length|]. split; [apply draw_bytes|].
  split; [reflexivity|]. split; [by rewrite hex_length, draw_length|].
  split; [apply hex_lower|]. split; [reflexivity|]. unfold md5_hex.
  split; [by rewrite hex_length, digest_length | apply hex_lower].
Qed.
End Encoder.

(** ** The upstream client *)

Section Client.
Context {nonint : Type} `{!Engine nonint}.
Implicit Types (cfg : config) (w : world nonint) (st : usage).
Implicit Types (body u p e v : value nonint).

Lemma OptGet_member v (q : prop) :
  q ≠ P_length → OptGet v q = default VUndefined (member v q).
Proof. intros Hq. destruct v; try done; by destruct q. Qed.

Lemma Get_member v (q : prop) :
  q ≠ P_length → ToBoolean v = true → Get v q = Ok (default VUndefined (member v q)).
Proof. intros Hq Hv. destruct v; try done; by destruct q. Qed.

(** The optional chain of the [catch] block finds the embedded error
    object. *)
Lemma optional_chain_embedded (err : js_error nonint) :
  OptGet (OptGet (error_data_opt err) P_subsonic_response) P_error
  = default VUndefined (embedded_error err).
Proof.
  rewrite !OptGet_member by done.
  destruct err as [|msg [r|]]; try done. simpl.
  by destruct (member (res_data r) P_subsonic_response).
Qed.

(** The reading of the reply throws nothing but a [TypeError]. *)
Lemma check_response_throws u data err :
  check_response u data = Throw err → err = TypeError.
Proof.
  unfold check_response. intros H.
  assert (∀ v (q : prop) x, Get v q = Throw x → x = TypeError) as HG
    by (intros v q x; destruct v; try done; try (by destruct q); by inversion 1).
  destruct (Get data P_subsonic_response) as [sr|x] eqn:E1; [|inversion H; subst; eauto].
  cbn [mbind result_bind] in H.
  destruct (Get sr P_status) as [status|x] eqn:E2; [|inversion H; subst; eauto].
  cbn [mbind result_bind] in H.
  destruct (strict_eq_string status (lit "ok")); [done|].
  destruct (Get sr P_error) as [error|x] eqn:E3; [|inversion H; subst; eauto].
  cbn [mbind result_bind] in H.
  destruct (Get error P_message) as [m|x] eqn:E4; [|inversion H; subst; eauto].
  done.
Qed.

(** The [catch] block answers every error, and answers it as the
    specification says. *)
Lemma run_catch_answer w st err :
  run w (register_catch err) st
  = (Ok (answer_to_error err), st,
     [Logged (lit "Registration error:")
        (if ToBoolean (error_data_opt err) then LogData (error_data_opt err)
         else LogMessage err)]).
Proof.
  rewrite run_catch. cbn zeta. rewrite optional_chain_embedded. unfold answer_to_error.
  destruct (embedded_error err) as [found|] eqn:Hfound; cbn [default from_option id]; [|done].
  destruct (ToBoolean found) eqn:Htrue; [|done].
  destruct err as [|msg [r|]]; try done. cbn [embedded_error] in Hfound.
  destruct (res_data r) as [| | | | | |props] eqn:Hdata; try done.
  cbn [member mbind option_bind] in Hfound.
  destruct (own_property (prop_name P_subsonic_response) props) as [sr|] eqn:Hsr; [|done].
  cbn [mbind option_bind] in Hfound.
  destruct sr as [| | | | | |props'] eqn:Hsr'; try done. cbn [member] in Hfound.
  cbn [error_data mbind result_bind Get]. rewrite Hdata. cbn [Get mbind result_bind].
  rewrite Hsr. cbn [default from_option id Get mbind result_bind]. rewrite Hfound.
  cbn [default from_option id mbind result_bind]. rewrite (Get_member found P_message) by done.
  reflexivity.
Qed.

(** Every request is answered, and no run makes more than one outbound
    call. *)
Lemma handler_always_answers cfg w st body :
  ∃ resp st' tr,
    run w (register_handler cfg body) st = (Ok resp, st', tr)
    ∧ length (outbound tr) ≤ 1.
Proof.
  destruct (validation body) as [[r | u p e] | err] eqn:Hv.
  - rewrite (run_reject cfg w st body r Hv). eexists _, _, _. split; [done|]. simpl. lia.
  - rewrite (run_accept cfg w st body u p e Hv).
    destruct (settled cfg w st u p e ≫= _) as [resp | err].
    + eexists _, _, _. split; [done|]. simpl. lia.
    + rewrite run_catch_answer. eexists _, _, _. split; [done|]. simpl. lia.
  - unfold register_handler. rewrite run_bind. unfold register_try. rewrite Hv.
    cbn [run]. rewrite run_catch_answer. eexists _, _, _. split; [done|]. simpl. lia.
Qed.

(** The run of a validated request whose call resolved, up to the reading of
    the reply. *)
Ltac into_reply Hv Hs :=
  rewrite (run_accept _ _ _ _ _ _ _ Hv), Hs; cbn [mbind result_bind];
  unfold check_response.


(** A reply whose status is not "ok" and which carries an error object is
    answered 400 with the message of that object, or with the generic
    message when it has none. *)
Lemma upstream_error_reported cfg w st body u p e r sr status error m :
  validation body = Ok (Accept u p e) →
  settled cfg w st u p e = Ok r →
  Get (res_data r) P_subsonic_response = Ok sr →
  Get sr P_status = Ok status → strict_eq_string status (lit "ok") = false →
  Get sr P_error = Ok error → Get error P_message = Ok m →
  run w (register_handler cfg body) st
  = (Ok (send 400 (failure (or_else m (VString (lit "Failed to create user"))))),
     after_call st,
     [Drew 16 (draw w st 16);
      Called (createUserUrl cfg) (params cfg (credentials cfg w st) u p e) (Ok r)]).
Proof.
  intros Hv Hs Hsr Hst Hok Herr Hm.
  into_reply Hv Hs. rewrite Hsr. cbn [mbind result_bind]. rewrite Hst.
  cbn [mbind result_bind]. rewrite Hok, Herr. cbn [mbind result_bind]. rewrite Hm.
  reflexivity.
Qed.

(** C3, the code at the failing input: a reply whose status is not "ok" and
    which carries no error object makes the handler read [message] of
    [undefined]; the [TypeError] lands in the [catch] block and the answer
    is 500 "Internal server error", not 400 "Failed to create user". *)
Theorem missing_error_object_answers_500 cfg w st body u p e r sr status :
  validation body = Ok (Accept u p e) →
  settled cfg w st u p e = Ok r →
  Get (res_data r) P_subsonic_response = Ok sr →
  Get sr P_status = Ok status → strict_eq_string status (lit "ok") = false →
  Get sr P_error = Ok VUndefined →
  run w (register_handler cfg body) st
  = (Ok (send 500 (failure (VString (lit "Internal server error")))),
     after_call st,
     [Drew 16 (draw w st 16);
      Called (createUserUrl cfg) (params cfg (credentials cfg w st) u p e) (Ok r);
      Logged (lit "Registration error:") (LogMessage TypeError)]).
Proof.
  intros Hv Hs Hsr Hst Hok Herr.
  into_reply Hv Hs. rewrite Hsr. cbn [mbind result_bind]. rewrite Hst.
  cbn [mbind result_bind]. rewrite Hok, Herr. cbn [mbind result_bind Get].
  rewrite run_catch_TypeError. reflexivity.
Qed.

(** C4: a request that passes the validator and whose [try] block fails
    once the call is out, whether axios rejects (no response, or a response
    that is not 2xx) or the body of the reply cannot be read.  The error is
    logged and the handler looks for the error object embedded in it: if
    there is one, the answer is 400 with its message, or "User creation
    failed" when it has none; otherwise the answer is 500 with the fixed
    text "Internal server error", whatever the error says.  One call has
    gone out and none follows. *)
Theorem transport_failure cfg w st body u p e err :
  validation body = Ok (Accept u p e) →
  settled cfg w st u p e ≫= (λ r, check_response u (res_data r)) = Throw err →
  ∃ resp log,
    run w (register_handler cfg body) st
    = (Ok resp, after_call st,
       [Drew 16 (draw w st 16);
        Called (createUserUrl cfg) (params cfg (credentials cfg w st) u p e)
               (settled cfg w st u p e);
        Logged (lit "Registration error:") log])
    ∧ resp =
      match embedded_error err with
      | Some found =>
          if ToBoolean found then
            send 400 (failure (or_else (default VUndefined (member found P_message))
                                       (VString (lit "User creation failed"))))
          else send 500 (failure (VString (lit "Internal server error")))
      | None => send 500 (failure (VString (lit "Internal server error")))
      end.
Proof.
  intros Hv Hs. rewrite (run_accept cfg w st body u p e Hv), Hs, run_catch_answer.
  by eexists _, _.
Qed.

(** A reply that cannot be read raises a [TypeError], which embeds
    nothing: the answer is the generic one. *)
Lemma malformed_reply cfg w st body u p e r err :
  validation body = Ok (Accept u p e) →
  settled cfg w st u p e = Ok r → check_response u (res_data r) = Throw err →
  (run w (register_handler cfg body) st).1.1
  = Ok (send 500 (failure (VString (lit "Internal server error")))).
Proof.
  intros Hv Hs Hc.
  rewrite (run_accept cfg w st body u p e Hv), Hs. cbn [mbind result_bind]. rewrite Hc.
  rewrite (check_response_throws _ _ _ Hc), run_catch_TypeError. reflexivity.
Qed.

(** C6: a request that passes the validator makes one outbound call, a GET
    of [NAVIDROME_URL/rest/createUser]; its role flags are constants
    ([adminRole], [jukeboxRole], [settingsRole] false, the other eight
    true); [username], [password], [email] are the fields of the body as
    they came; [v], [c] and [f] are fixed, [f] being "json". *)
Theorem createUser_call cfg w st body u p e :
  validation body = Ok (Accept u p e) →
  ∃ ps,
    outbound (run w (register_handler cfg body) st).2
    = [(env_string (NAVIDROME_URL cfg) ++ lit "/rest/createUser", ps)]
    ∧ createUser.adminRole ps = false
    ∧ createUser.jukeboxRole ps = false
    ∧ createUser.settingsRole ps = false
    ∧ createUser.downloadRole ps = true
    ∧ createUser.uploadRole ps = true
    ∧ createUser.playlistRole ps = true
    ∧ createUser.shareRole ps = true
    ∧ createUser.commentRole ps = true
    ∧ createUser.podcastRole ps = true
    ∧ createUser.streamRole ps = true
    ∧ createUser.coverArtRole ps = true
    ∧ Get body P_username = Ok (createUser.username ps)
    ∧ Get body P_password = Ok (createUser.password ps)
    ∧ Get body P_email = Ok (createUser.email ps)
    ∧ createUser.v ps = lit "1.16.1"
    ∧ createUser.c ps = lit "NavidromeRegistration"
    ∧ createUser.f ps = lit "json".
Proof.
  intros Hv. eexists. split; [by apply outbound_accept|].
  apply validation_accept in Hv as (Gu & Gp & Ge). by repeat split.
Qed.

End Client.

(** ** The rate limiter *)

Section Limiter.
Context {nonint : Type} `{!Engine nonint}.
Implicit Types (cfg : config) (w : world nonint) (sv : server).
Implicit Types (a : arrival nonint) (l : list (arrival nonint)) (k : jsstring).





End Limiter.

(** ** One credential pair per attempt *)

Section Freshness.
Context {nonint : Type} `{!Engine nonint}.
Implicit Types (cfg : config) (w : world nonint) (st : usage).
Implicit Types (body u p e : value nonint).

Lemma usage_accept cfg w st body u p e :
  validation body = Ok (Accept u p e) →
  (run w (register_handler cfg body) st).1.2 = after_call st.
Proof.
  intros H. rewrite (run_accept cfg w st body u p e H).
  destruct (settled cfg w st u p e ≫= _) as [resp|err]; [done|].
  by rewrite run_catch.
Qed.

(** C8, amended.  Take two attempts that pass the validator, made by one
    process, the second starting no earlier than where the first left the
    random source ([st1] and [st2] say how much of the world the process
    had used when each began; the calls of the two may interleave).  Each
    makes its one call with the salt that encodes the 16 bytes it has drawn
    itself and the token computed from that salt, and leaves the source 16
    bytes further, so that the second reads no byte the first has read;
    nothing is kept from one attempt for the next.  The two calls share
    their pair exactly when the source gave the same 16 bytes twice. *)
Theorem credentials_drawn_per_attempt cfg w st1 st2 req1 req2 u1 p1 e1 u2 p2 e2 :
  validation req1 = Ok (Accept u1 p1 e1) →
  validation req2 = Ok (Accept u2 p2 e2) →
  drawn (run w (register_handler cfg req1) st1).1.2 ≤ drawn st2 →
  ∃ ps1 ps2,
    outbound (run w (register_handler cfg req1) st1).2 = [(createUserUrl cfg, ps1)]
    ∧ outbound (run w (register_handler cfg req2) st2).2 = [(createUserUrl cfg, ps2)]
    ∧ createUser.s ps1 = hex (draw w st1 16)
    ∧ createUser.t ps1 = md5_hex (env_string (ADMIN_PASSWORD cfg) ++ createUser.s ps1)
    ∧ createUser.s ps2 = hex (draw w st2 16)
    ∧ createUser.t ps2 = md5_hex (env_string (ADMIN_PASSWORD cfg) ++ createUser.s ps2)
    ∧ drawn (run w (register_handler cfg req1) st1).1.2 = drawn st1 + 16
    ∧ drawn (run w (register_handler cfg req2) st2).1.2 = drawn st2 + 16
    ∧ (∀ i, i ∈ seq (drawn st1) 16 → i ∉ seq (drawn st2) 16)
    ∧ ((createUser.s ps1, createUser.t ps1) = (createUser.s ps2, createUser.t ps2)
       ↔ draw w st1 16 = draw w st2 16).
Proof.
  intros H1 H2 Hle. eexists _, _.
  split; [by apply outbound_accept|]. split; [by apply outbound_accept|].
  rewrite (usage_accept cfg w st1 req1 u1 p1 e1 H1) in Hle |- *.
  rewrite (usage_accept cfg w st2 req2 u2 p2 e2 H2).
  cbn [after_call drawn] in Hle |- *.
  repeat (split; [reflexivity|]).
  split; [intros i Hi1 Hi2; apply elem_of_seq in Hi1, Hi2; lia|].
  cbn [params createUser.s createUser.t credentials salt token].
  split.
  - intros Heq. eapply hex_inj; [apply draw_bytes..|]. exact (f_equal fst Heq).
  - intros Heq. by rewrite Heq.
Qed.
End Freshness.

(** ** The theorems at sample inputs *)

(** The burst at the limiter: five requests pass, each with its two events
    (the draw and the call), and the last two are turned away untouched. *)
Example burst_outcomes :
  (λ out, match out with
          | (Handled _, tr) => (true, length tr)
          | (Limited _, tr) => (false, length tr)
          end)
  <$> serve_all sample_config (replies ok_reply) fresh_server (first_arrival :: burst)
  = [(true, 2); (true, 2); (true, 2); (true, 2); (true, 2); (false, 0); (false, 0)].
Proof. vm_compute. reflexivity. Qed.


Lemma missing_error_object_answers_500_witness :
  (run (replies failed_reply) (register_handler sample_config alice) idle).1.1
  = Ok (send 500 (failure (VString (lit "Internal server error")))).
Proof.
  rewrite (missing_error_object_answers_500 sample_config (replies failed_reply) idle alice
             (text "alice") (text "correct horse") (text "alice@example.org")
             {| res_status := 200; res_data := failed_reply |}
             (VObject [(lit "status", text "failed")]) (text "failed")
             eq_refl eq_refl eq_refl eq_refl eq_refl eq_refl).
  reflexivity.
Defined.

Lemma transport_failure_witness :
  (run refused (register_handler sample_config alice) idle).1.1
  = Ok (send 500 (failure (VString (lit "Internal server error")))).
Proof.
  destruct (transport_failure sample_config refused idle alice
              (text "alice") (text "correct horse") (text "alice@example.org")
              (AxiosError (lit "connect ECONNREFUSED 127.0.0.1:4533") None)
              eq_refl eq_refl) as (resp & log & -> & ->).
  reflexivity.
Defined.

Lemma createUser_call_witness :
  ∃ ps, outbound (run (replies ok_reply) (register_handler sample_config alice) idle).2
        = [(lit "http://navidrome:4533/rest/createUser", ps)]
        ∧ createUser.adminRole ps = false
        ∧ createUser.password ps = text "correct horse".
Proof.
  destruct (createUser_call sample_config (replies ok_reply) idle alice
              (text "alice") (text "correct horse") (text "alice@example.org") eq_refl)
    as (ps & Hcall & Hadmin & _ & _ & _ & _ & _ & _ & _ & _ & _ & _ & _ & Hp & _).
  exists ps. split; [exact Hcall|]. split; [exact Hadmin|].
  vm_compute in Hp. by injection Hp.
Defined.


Lemma credentials_drawn_per_attempt_witness :
  ∃ ps1 ps2,
    outbound (run (replies ok_reply) (register_handler sample_config alice) idle).2
    = [(createUserUrl sample_config, ps1)]
    ∧ outbound (run (replies ok_reply) (register_handler sample_config bob) (after_call idle)).2
      = [(createUserUrl sample_config, ps2)]
    ∧ (createUser.s ps1, createUser.t ps1) ≠ (createUser.s ps2, createUser.t ps2).
Proof.
  destruct (credentials_drawn_per_attempt sample_config (replies ok_reply)
              idle (after_call idle) alice bob
              (text "alice") (text "correct horse") (text "alice@example.org")
              (text "bob") (text "battery staple") (text "bob@example.org")
              eq_refl eq_refl (le_n 16))
    as (ps1 & ps2 & H1 & H2 & _ & _ & _ & _ & _ & _ & _ & Hiff).
  exists ps1, ps2. split; [exact H1|]. split; [exact H2|].
  intros Heq. apply Hiff in Heq. vm_compute in Heq. discriminate Heq.
Defined.

(** C8 as it is stated fails when the random source repeats itself: with a
    source that gives the byte 7 for ever, the attempts of alice and of
    bob, one after the other, send the same salt and the same token. *)
Lemma stuck_source_shares_pair :
  ¬ pairs_never_shared sample_config stuck_source idle alice bob.
Proof.
  intros H.
  apply (H (createUserUrl sample_config,
            params sample_config (credentials sample_config stuck_source idle)
              (text "alice") (text "correct horse") (text "alice@example.org"))
           (createUserUrl sample_config,
            params sample_config (credentials sample_config stuck_source (after_call idle))
              (text "bob") (text "battery staple") (text "bob@example.org"))).
  - rewrite (outbound_accept sample_config stuck_source idle alice
               (text "alice") (text "correct horse") (text "alice@example.org") eq_refl).
    by apply list_elem_of_singleton.
  - change (run stuck_source (register_handler sample_config alice) idle).1.2
      with (after_call idle).
    rewrite (outbound_accept sample_config stuck_source (after_call idle) bob
               (text "bob") (text "battery staple") (text "bob@example.org") eq_refl).
    by apply list_elem_of_singleton.
  - vm_compute. reflexivity.
Qed.

(** C1 as it is stated fails on the request whose password is the number
    1234567: the password has no length of at least 8, yet the request is
    not answered with the password message and a call goes out. *)
Lemma validator_misses_numeric_password :
  ¬ first_failure_wins sample_config (replies (subsonic [(lit "status", text "ok")]))
      idle numeric_password.
Proof.
  intros H.
  destruct (H (text "alice") (VNumber (Int 1234567)) (text "alice@example.org"))
    as (_ & _ & H3 & _); try reflexivity.
  assert (username_rule (text "alice" : value Double.rest)) as Hu.
  { exists (lit "alice"). split; [done|]. by apply matcher_username. }
  assert (¬ password_rule (VNumber (Int 1234567) : value Double.rest)) as Hp.
  { intros (s & Hs & _). discriminate Hs. }
  assert (¬ (blank (text "alice" : value Double.rest)
             ∨ blank (VNumber (Int 1234567) : value Double.rest)
             ∨ blank (text "alice@example.org" : value Double.rest))) as Hb.
  { intros [Hb | [Hb | Hb]]; destruct Hb as [Hb | [Hb | Hb]]; discriminate Hb. }
  specialize (H3 Hb Hu Hp). unfold rejected in H3.
  apply (f_equal (λ x, length x.2)) in H3. vm_compute in H3. discriminate H3.
Qed.

Lemma validator_first_failure_wins_witness :
  first_failure_wins sample_config (replies (subsonic [(lit "status", text "ok")])) idle
    (registration (text "alice") (text "short") (text "alice@example.org")).
Proof.
  apply validator_first_failure_wins; intros v Hv; vm_compute in Hv;
    injection Hv as <-; right; right; eexists; reflexivity.
Defined.

(** ** Every run of the registration handler *)

Section Answers.
Context {nonint : Type} `{!Engine nonint}.
Implicit Types (cfg : config) (w : world nonint) (st : usage).
Implicit Types (body u p e v : value nonint).

(** The run of the handler, by the outcome of its checks. *)
Lemma run_by_cases cfg w st body :
  run w (register_handler cfg body) st =
  match validation body with
  | Ok (Reject r) => (Ok r, st, [])
  | Throw err =>
      (Ok (answer_to_error err), st,
       [Logged (lit "Registration error:")
          (if ToBoolean (error_data_opt err) then LogData (error_data_opt err)
           else LogMessage err)])
  | Ok (Accept u p e) =>
      let tr0 := [Drew 16 (draw w st 16);
                  Called (createUserUrl cfg) (params cfg (credentials cfg w st) u p e)
                         (settled cfg w st u p e)] in
      match settled cfg w st u p e ≫= (λ r, check_response u (res_data r)) with
      | Ok resp => (Ok resp, after_call st, tr0)
      | Throw err =>
          (Ok (answer_to_error err), after_call st,
           tr0 ++ [Logged (lit "Registration error:")
                     (if ToBoolean (error_data_opt err) then LogData (error_data_opt err)
                      else LogMessage err)])
      end
  end.
Proof.
  destruct (validation body) as [[r | u p e] | err] eqn:Hv.
  - by apply run_reject.
  - rewrite (run_accept cfg w st body u p e Hv).
    destruct (settled cfg w st u p e ≫= _) as [resp | err]; [done|].
    by rewrite run_catch_answer.
  - unfold register_handler. rewrite run_bind. unfold register_try. rewrite Hv.
    cbn [run]. by rewrite run_catch_answer.
Qed.

Lemma or_else_truthy (a b : value nonint) :
  ToBoolean b = true → ToBoolean (or_else a b) = true.
Proof. intros Hb. unfold or_else. by destruct (ToBoolean a) eqn:Ha. Qed.

Lemma failure_shape (code : N) (error : value nonint) :
  code = 400%N ∨ code = 500%N → ToBoolean error = true →
  answer_shape (send code (failure error)).
Proof.
  intros Hcode Herr. exists (failure error). split; [done|]. right.
  split; [done|]. split; [done|]. by exists error.
Qed.

Lemma validation_reject_shape body r :
  validation body = Ok (Reject r) → status r = 400%N ∧ answer_shape r.
Proof.
  unfold validation. intros H.
  destruct (Get body P_username) as [u'|]; [|done].
  destruct (Get body P_password) as [p'|]; [|done].
  destruct (Get body P_email) as [e'|]; [|done].
  cbn [mbind result_bind] in H.
  destruct (negb (ToBoolean u') || negb (ToBoolean p') || negb (ToBoolean e')).
  { injection H as <-. split; [done|]. apply failure_shape; auto. }
  destruct (test username_regex u') as [[]|]; cbn [mbind result_bind negb] in H; try done.
  2:{ injection H as <-. split; [done|]. apply failure_shape; auto. }
  destruct (Get p' P_length) as [len|]; cbn [mbind result_bind] in H; [|done].
  destruct (lt8 len) as [[]|]; cbn [mbind result_bind] in H; try done.
  { injection H as <-. split; [done|]. apply failure_shape; auto. }
  destruct (test emailRegex e') as [[]|]; cbn [mbind result_bind negb] in H; try done.
  injection H as <-. split; [done|]. apply failure_shape; auto.
Qed.

Lemma answer_to_error_shape (err : js_error nonint) :
  status (answer_to_error err) ≠ 200%N ∧ answer_shape (answer_to_error err).
Proof.
  unfold answer_to_error.
  destruct (embedded_error err) as [found|]; [destruct (ToBoolean found)|];
    (split; [done|]); apply failure_shape; auto using or_else_truthy.
Qed.

(** What the reading of a reply can give: the success answer, on a status
    that is the string "ok", or a 400. *)
Lemma check_response_shape u data resp :
  check_response u data = Ok resp →
  (∃ sr, Get data P_subsonic_response = Ok sr
         ∧ Get sr P_status = Ok (VString (lit "ok"))
         ∧ resp = send 200 [(lit "success", VBool true);
                            (lit "message", VString (lit "Account created successfully"));
                            (lit "username", u)])
  ∨ (status resp = 400%N ∧ answer_shape resp).
Proof.
  unfold check_response. intros H.
  destruct (Get data P_subsonic_response) as [sr|] eqn:E1; [|done].
  cbn [mbind result_bind] in H.
  destruct (Get sr P_status) as [st'|] eqn:E2; [|done].
  cbn [mbind result_bind] in H.
  destruct (strict_eq_string st' (lit "ok")) eqn:Hok.
  - left. exists sr. split; [done|]. injection H as <-. split; [|done].
    destruct st'; try done. cbn [strict_eq_string] in Hok.
    by apply bool_decide_eq_true in Hok as ->.
  - right. destruct (Get sr P_error) as [error|]; [|done]. cbn [mbind result_bind] in H.
    destruct (Get error P_message) as [m|]; [|done]. cbn [mbind result_bind] in H.
    injection H as <-. split; [done|]. apply failure_shape; auto using or_else_truthy.
Qed.


(** The handler goes to the upstream server exactly when its checks accept
    the request: then it draws 16 bytes and makes one call; in every other
    case (a rejection, or an exception in the checks) it draws nothing and
    calls nothing. *)
Theorem call_iff_accepted cfg w st body :
  match validation body with
  | Ok (Accept u p e) =>
      outbound (run w (register_handler cfg body) st).2
      = [(createUserUrl cfg, params cfg (credentials cfg w st) u p e)]
      ∧ draws (run w (register_handler cfg body) st).2 = [draw w st 16]
      ∧ (run w (register_handler cfg body) st).1.2 = after_call st
  | _ =>
      outbound (run w (register_handler cfg body) st).2 = []
      ∧ draws (run w (register_handler cfg body) st).2 = []
      ∧ (run w (register_handler cfg body) st).1.2 = st
  end.
Proof.
  rewrite run_by_cases.
  destruct (validation body) as [[r | u p e] | err]; try done.
  by destruct (settled cfg w st u p e ≫= _).
Qed.


(** The error log gets at most one line a request.  Every answer 500 is
    logged; an answer 200 and a rejection by the checks are not. *)
Theorem logging_follows_the_catch cfg w st body resp :
  (run w (register_handler cfg body) st).1.1 = Ok resp →
  length (log_lines (run w (register_handler cfg body) st).2) ≤ 1
  ∧ (status resp = 500%N → length (log_lines (run w (register_handler cfg body) st).2) = 1)
  ∧ (status resp = 200%N → log_lines (run w (register_handler cfg body) st).2 = [])
  ∧ (validation body = Ok (Reject resp) →
     log_lines (run w (register_handler cfg body) st).2 = []).
Proof.
  rewrite run_by_cases.
  destruct (validation body) as [[r | u p e] | err] eqn:Hv.
  - intros [= ->]. apply validation_reject_shape in Hv as [Hv _].
    cbn. rewrite Hv. repeat split; try done; lia.
  - destruct (settled cfg w st u p e) as [r | err] eqn:Hs; cbn [mbind result_bind].
    + destruct (check_response u (res_data r)) as [resp' | err] eqn:Hc.
      * intros [= ->]. cbn. repeat split; try done; try lia.
        destruct (check_response_shape _ _ _ Hc) as [(sr & _ & _ & ->) | [H400 _]];
          [done | by rewrite H400].
      * intros [= <-]. cbn. repeat split; try done.
        intros H200. by destruct (answer_to_error_shape err).
    + intros [= <-]. cbn. repeat split; try done.
      intros H200. by destruct (answer_to_error_shape err).
  - intros [= <-]. cbn. repeat split; try done.
    intros H200. by destruct (answer_to_error_shape err).
Qed.
End Answers.

(** ** What the checks let through *)

Section Accepted.
Context {nonint : Type} `{!Engine nonint}.
Implicit Types (cfg : config) (w : world nonint) (st : usage).
Implicit Types (u p e v : value nonint).

Lemma test_true (r : regex) v :
  test r v = Ok true → ∃ s, ToString v = Ok s ∧ matcher r s = true.
Proof.
  unfold test. destruct (ToString v) as [s|]; [|done]. cbn [mbind result_bind].
  intros [= H]. by exists s.
Qed.

(** Whatever JSON values the three fields are, a request the checks accept
    has three truthy fields, a username and an address that render to
    strings of the required shapes, and a password whose [length] is not
    below 8. *)
Theorem accepted_fields_are_shaped (req : value nonint) u p e :
  validation req = Ok (Accept u p e) →
  ToBoolean u = true ∧ ToBoolean p = true ∧ ToBoolean e = true
  ∧ (∃ su, ToString u = Ok su ∧ username_shape su)
  ∧ (∃ len, Get p P_length = Ok len ∧ lt8 len = Ok false)
  ∧ (∃ se, ToString e = Ok se ∧ email_shape se).
Proof.
  unfold validation. intros H.
  destruct (Get req P_username) as [u'|]; [|done].
  destruct (Get req P_password) as [p'|]; [|done].
  destruct (Get req P_email) as [e'|]; [|done].
  cbn [mbind result_bind] in H.
  destruct (negb (ToBoolean u') || negb (ToBoolean p') || negb (ToBoolean e')) eqn:Hb; [done|].
  apply orb_false_iff in Hb as [Hb He]. apply orb_false_iff in Hb as [Hu Hp].
  apply negb_false_iff in Hu, Hp, He.
  destruct (test username_regex u') as [[]|] eqn:Htu; cbn [mbind result_bind negb] in H; try done.
  destruct (Get p' P_length) as [len|] eqn:Hlen; cbn [mbind result_bind] in H; [|done].
  destruct (lt8 len) as [[]|] eqn:Hlt; cbn [mbind result_bind] in H; try done.
  destruct (test emailRegex e') as [[]|] eqn:Hte; cbn [mbind result_bind negb] in H; try done.
  injection H as <- <- <-.
  apply test_true in Htu as (su & Hsu & Hmu). apply test_true in Hte as (se & Hse & Hme).
  repeat split; try done.
  - exists su. split; [done|]. by apply matcher_username.
  - by exists len.
  - exists se. split; [done|]. by apply matcher_email.
Qed.

(** With a username and an address that are in order, the checks come down
    to the test of the password. *)
Lemma validation_with_password (req : value nonint) su p se :
  Get req P_username = Ok (VString su) → Get req P_password = Ok p →
  Get req P_email = Ok (VString se) → username_shape su → email_shape se →
  validation req =
  if negb (ToBoolean p) then
    Ok (Reject (send 400 (failure (VString (lit "Username, password, and email are required")))))
  else
    len ← Get p P_length;
    short ← lt8 len;
    Ok (if (short : bool) then
          Reject (send 400 (failure (VString (lit "Password must be at least 8 characters"))))
        else Accept (VString su) p (VString se)).
Proof.
  intros Gu Gp Ge Hu He. unfold validation. rewrite Gu, Gp, Ge. cbn [mbind result_bind].
  assert (ToBoolean (VString su : value nonint) = true) as ->.
  { destruct su; [|done]. destruct Hu as [Hl _]. simpl in Hl. lia. }
  assert (ToBoolean (VString se : value nonint) = true) as ->.
  { destruct se; [|done]. destruct He as (l & d & t & Heq & Hl & _). by destruct l. }
  cbn [negb orb]. rewrite orb_false_r.
  destruct (negb (ToBoolean p)); [done|].
  unfold test. cbn [ToString mbind result_bind].
  apply matcher_username in Hu. apply matcher_email in He. rewrite Hu, He. cbn [negb].
  destruct (Get p P_length) as [len|]; [|done]. cbn [mbind result_bind].
  destruct (lt8 len) as [[]|]; done.
Qed.

(** The test of the password, kind by kind: a string passes when it has 8
    code units, an array when it has 8 elements whatever they are, and a
    truthy number or boolean always passes. *)
Theorem password_check_by_kind (req : value nonint) su p se :
  Get req P_username = Ok (VString su) → Get req P_password = Ok p →
  Get req P_email = Ok (VString se) → username_shape su → email_shape se →
  (∀ sp, p = VString sp →
         (validation req = Ok (Accept (VString su) p (VString se)) ↔ 8 ≤ length sp))
  ∧ (∀ items, p = VArray items →
              (validation req = Ok (Accept (VString su) p (VString se)) ↔ 8 ≤ length items))
  ∧ (∀ n, p = VNumber n → ToBoolean p = true →
          validation req = Ok (Accept (VString su) p (VString se)))
  ∧ (p = VBool true → validation req = Ok (Accept (VString su) p (VString se))).
Proof.
  intros Gu Gp Ge Hu He.
  rewrite (validation_with_password req su p se Gu Gp Ge Hu He).
  split; [|split; [|split]].
  - intros sp ->. destruct sp as [|c sp]; cbn [ToBoolean negb].
    { split; [done | simpl; lia]. }
    cbn [Get mbind result_bind]. rewrite lt8_length. cbn [mbind result_bind].
    destruct (Nat.ltb_spec (length (c :: sp)) 8); split; try done; lia.
  - intros items ->. cbn [ToBoolean negb Get mbind result_bind].
    rewrite lt8_length. cbn [mbind result_bind].
    destruct (Nat.ltb_spec (length items) 8); split; try done; lia.
  - intros n -> Hn. rewrite Hn. reflexivity.
  - intros ->. reflexivity.
Qed.

(** Three strings that meet the rules are not refused: the request goes to
    the upstream server, once, with the very strings it came with. *)
Theorem valid_strings_reach_upstream cfg w st (req : value nonint) su sp se :
  Get req P_username = Ok (VString su) → Get req P_password = Ok (VString sp) →
  Get req P_email = Ok (VString se) →
  username_shape su → 8 ≤ length sp → email_shape se →
  ∃ ps,
    outbound (run w (register_handler cfg req) st).2 = [(createUserUrl cfg, ps)]
    ∧ createUser.username ps = VString su
    ∧ createUser.password ps = VString sp
    ∧ createUser.email ps = VString se.
Proof.
  intros Gu Gp Ge Hu Hp He. eexists.
  split; [apply outbound_accept; by apply validation_passes|]. done.
Qed.

(** A username that cannot be rendered, an object with a [toString] member
    of its own, is not answered with the username message: the test throws,
    the answer is 500 and the error is logged; nothing goes upstream. *)
Theorem unprintable_username_answers_500 cfg w st (req : value nonint) props x p e :
  Get req P_username = Ok (VObject props) →
  own_property (lit "toString") props = Some x →
  Get req P_password = Ok p → Get req P_email = Ok e →
  ToBoolean p = true → ToBoolean e = true →
  run w (register_handler cfg req) st
  = (Ok (send 500 (failure (VString (lit "Internal server error")))), st,
     [Logged (lit "Registration error:") (LogMessage TypeError)]).
Proof.
  intros Gu Hx Gp Ge Hp He.
  assert (validation req = Throw TypeError) as Hv.
  { unfold validation. rewrite Gu, Gp, Ge. cbn [mbind result_bind ToBoolean negb orb].
    rewrite Hp, He. cbn [negb orb]. unfold test. cbn [ToString]. by rewrite Hx. }
  unfold register_handler. rewrite run_bind. unfold register_try. rewrite Hv.
  reflexivity.
Qed.
End Accepted.

(** An address the pattern accepts has exactly one at sign, not in first
    place, no white space, and a dot further on that neither follows the at
    sign directly nor ends the address. *)
Theorem accepted_email_anatomy (s : jsstring) :
  matcher emailRegex s = true →
  ∃ i j,
    s !! i = Some 64%N ∧ s !! j = Some 46%N
    ∧ 1 ≤ i ∧ i + 2 ≤ j ∧ j + 2 ≤ length s
    ∧ (∀ k, s !! k = Some 64%N → k = i)
    ∧ Forall (λ c, is_space c = false) s.
Proof.
  intros (l & d & t & -> & Hl & Hd & Ht & Hall)%matcher_email.
  rewrite !Forall_app in Hall. destruct Hall as (Hal & Had & Hat).
  assert (∀ x : jsstring, x ≠ [] → 1 ≤ length x) as Hne
    by (intros [|? ?] ?; simpl; [done | lia]).
  pose proof (Hne l Hl). pose proof (Hne d Hd). pose proof (Hne t Ht).
  assert (∀ (x : jsstring) k, Forall (λ c, is_space c = false ∧ c ≠ 64%N) x →
                              x !! k = Some 64%N → False) as Hno.
  { intros x k Hx Hk. rewrite Forall_lookup in Hx. by destruct (Hx k _ Hk). }
  change (lit "@") with [64%N]. change (lit ".") with [46%N]. cbn [app].
  exists (length l), (length l + S (length d)). split; [|split; [|split; [|split; [|split; [|split]]]]].
  - by apply list_lookup_middle.
  - rewrite lookup_app_r by lia. replace (length l + S (length d) - length l) with (S (length d)) by lia.
    rewrite lookup_cons_ne_0 by done. by apply list_lookup_middle.
  - done.
  - lia.
  - rewrite length_app. cbn [length]. rewrite length_app. cbn [length]. lia.
  - intros k Hk. apply lookup_app_Some in Hk as [Hk | [Hge Hk]]; [by destruct (Hno l k Hal)|].
    apply lookup_cons_Some in Hk as [[Hk _] | [Hk1 Hk]]; [lia|].
    apply lookup_app_Some in Hk as [Hk | [_ Hk]]; [by destruct (Hno d _ Had Hk)|].
    apply lookup_cons_Some in Hk as [[_ Hk] | [_ Hk]]; [done|].
    by destruct (Hno t _ Hat Hk).
  - rewrite Forall_app, Forall_cons, Forall_app, Forall_cons.
    repeat split; try done; eapply Forall_impl; try eassumption; by intros c [? _].
Qed.

(** ** Replies, settings and start-up *)

Section Surroundings.
Context {nonint : Type} `{!Engine nonint}.
Implicit Types (cfg : config) (w : world nonint) (st : usage).
Implicit Types (u p e v : value nonint).

(** A reply that is no object with a [subsonic-response] member (a page of
    text, a list, [null], an object without the member) makes the reading
    throw: the answer is 500, after the one call, and the error is logged. *)
Theorem reply_without_envelope_answers_500 cfg w st (req : value nonint) u p e r :
  validation req = Ok (Accept u p e) →
  settled cfg w st u p e = Ok r →
  member (res_data r) P_subsonic_response = None →
  run w (register_handler cfg req) st
  = (Ok (send 500 (failure (VString (lit "Internal server error")))),
     after_call st,
     [Drew 16 (draw w st 16);
      Called (createUserUrl cfg) (params cfg (credentials cfg w st) u p e) (Ok r);
      Logged (lit "Registration error:") (LogMessage TypeError)]).
Proof.
  intros Hv Hs Hm.
  assert (check_response u (res_data r) = Throw TypeError) as Hc.
  { unfold check_response. destruct (res_data r) as [| | | | | |props]; try done.
    cbn [member] in Hm. cbn [Get]. by rewrite Hm. }
  rewrite (run_accept cfg w st req u p e Hv), Hs. cbn [mbind result_bind]. rewrite Hc.
  by rewrite run_catch_TypeError.
Qed.

(** The answer to a request is decided by the request and by what the
    upstream server replies.  The settings, the random bytes and the
    credential pair made from them have no other way into it. *)
Theorem answer_depends_on_reply_only cfg1 cfg2 w1 w2 st1 st2 (req : value nonint) :
  (∀ u p e, settled cfg1 w1 st1 u p e = settled cfg2 w2 st2 u p e) →
  (run w1 (register_handler cfg1 req) st1).1.1
  = (run w2 (register_handler cfg2 req) st2).1.1.
Proof.
  intros Hsame. rewrite !run_by_cases.
  destruct (validation req) as [[r | u p e] | err]; try done.
  rewrite (Hsame u p e).
  by destruct (settled cfg2 w2 st2 u p e ≫= _).
Qed.

(** A setting that is missing from the environment stops nothing: an
    accepted request still goes out, to the address that starts with the
    word "undefined", under the user [undefined], with a token made from the
    word "undefined" and the salt. *)
Theorem missing_settings_go_unnoticed (env : gmap jsstring jsstring) w st
    (req : value nonint) u p e :
  validation req = Ok (Accept u p e) →
  ∃ url ps,
    outbound (run w (register_handler (read_config env) req) st).2 = [(url, ps)]
    ∧ (env !! lit "NAVIDROME_URL" = None → url = lit "undefined/rest/createUser")
    ∧ (env !! lit "NAVIDROME_ADMIN_USER" = None → createUser.u ps = VUndefined)
    ∧ (env !! lit "NAVIDROME_ADMIN_PASSWORD" = None →
       createUser.t ps = md5_hex (lit "undefined" ++ createUser.s ps)).
Proof.
  intros Hv. eexists _, _. split; [by apply outbound_accept|].
  unfold createUserUrl, read_config. cbn.
  split; [|split]; by intros ->.
Qed.

(** The port and the allowed origin fall back on their defaults exactly
    when the variable is missing or empty: [PORT] then is the number 3001
    and the origin then is "*".  A variable that is not empty is used as the
    string it is, unread: nothing in this file checks that [PORT] spells a
    port.  Neither value is ever empty. *)
Theorem port_and_origin_fall_back (env : gmap jsstring jsstring) :
  ToBoolean (PORT env : value nonint) = true
  ∧ ToBoolean (cors_origin env : value nonint) = true
  ∧ ((PORT env : value nonint) = VNumber (Int 3001)
     ↔ env !! lit "PORT" = None ∨ env !! lit "PORT" = Some [])
  ∧ (∀ s, env !! lit "PORT" = Some s → s ≠ [] → (PORT env : value nonint) = VString s)
  ∧ (env !! lit "FRONTEND_URL" = None ∨ env !! lit "FRONTEND_URL" = Some []
     → (cors_origin env : value nonint) = VString (lit "*"))
  ∧ (∀ s, env !! lit "FRONTEND_URL" = Some s → s ≠ []
          → (cors_origin env : value nonint) = VString s).
Proof.
  unfold PORT, cors_origin, or_else.
  destruct (env !! lit "PORT") as [[|c s]|];
    destruct (env !! lit "FRONTEND_URL") as [[|c' s']|];
    cbn [env_value ToBoolean];
    (split; [done|]); (split; [done|]);
    (split; [split; [try done; by intros _; auto | by intros [?|?]]|]);
    (split; [by intros ? [= <-] ? | ]);
    (split; [by intros [?|?] | by intros ? [= <-] ?]).
Qed.

(** The health check of the container passes whenever it reaches the
    service, whatever the settings and whatever the upstream server does:
    the route answers 200 and touches nothing. *)
Theorem healthcheck_always_passes cfg w st :
  healthcheck_exit (status (run w (health_handler cfg) st).1.1) = 0%N
  ∧ (run w (health_handler cfg) st).2 = []
  ∧ (run w (health_handler cfg) st).1.2 = st.
Proof. done. Qed.
End Surroundings.

(** ** The body is read through three fields *)

Section Fields.
Context {nonint : Type} `{!Engine nonint}.

(** Two bodies with the same [username], [password] and [email] are handled
    alike, event for event: whatever else a body holds (an [adminRole] of
    its own, say) is never read and changes neither the call nor the
    answer. *)
Theorem body_is_read_through_three_fields cfg (w : world nonint) st (req1 req2 : value nonint) :
  Get req1 P_username = Get req2 P_username →
  Get req1 P_password = Get req2 P_password →
  Get req1 P_email = Get req2 P_email →
  run w (register_handler cfg req1) st = run w (register_handler cfg req2) st.
Proof.
  intros Hu Hp He.
  assert (validation req1 = validation req2) as Hv
    by (unfold validation; by rewrite Hu, Hp, He).
  unfold register_handler, register_try. by rewrite Hv.
Qed.
End Fields.

(** ** The further theorems at sample inputs *)


Lemma logging_follows_the_catch_witness :
  length (log_lines (run refused (register_handler sample_config alice) idle).2) = 1.
Proof.
  destruct (logging_follows_the_catch sample_config refused idle alice
              (send 500 (failure (VString (lit "Internal server error")))) eq_refl)
    as (_ & H500 & _).
  apply H500. reflexivity.
Defined.

Lemma accepted_fields_are_shaped_witness :
  ∃ su, ToString (text "alice" : value Double.rest) = Ok su ∧ username_shape su.
Proof.
  destruct (accepted_fields_are_shaped numeric_password (text "alice")
              (VNumber (Int 1234567)) (text "alice@example.org") eq_refl)
    as (_ & _ & _ & Hu & _).
  exact Hu.
Defined.

Lemma password_check_by_kind_witness :
  validation list_password
  = Ok (Accept (text "alice") (VArray (replicate 8 VNull)) (text "alice@example.org")).
Proof.
  assert (username_shape (lit "alice")) as Hu by (by apply matcher_username).
  assert (email_shape (lit "alice@example.org")) as He by (by apply matcher_email).
  destruct (password_check_by_kind list_password (lit "alice") (VArray (replicate 8 VNull))
              (lit "alice@example.org") eq_refl eq_refl eq_refl Hu He)
    as (_ & Harray & _).
  apply (Harray (replicate 8 VNull) eq_refl). simpl. lia.
Defined.

Lemma valid_strings_reach_upstream_witness :
  ∃ ps, outbound (run (replies ok_reply) (register_handler sample_config alice) idle).2
        = [(createUserUrl sample_config, ps)]
        ∧ createUser.username ps = text "alice".
Proof.
  assert (username_shape (lit "alice")) as Hu by (by apply matcher_username).
  assert (email_shape (lit "alice@example.org")) as He by (by apply matcher_email).
  destruct (valid_strings_reach_upstream sample_config (replies ok_reply) idle alice
              (lit "alice") (lit "correct horse") (lit "alice@example.org")
              eq_refl eq_refl eq_refl Hu ltac:(simpl; lia) He)
    as (ps & Hcall & Hname & _).
  by exists ps.
Defined.

Lemma unprintable_username_answers_500_witness :
  (run (replies ok_reply) (register_handler sample_config unprintable) idle).1.1
  = Ok (send 500 (failure (VString (lit "Internal server error")))).
Proof.
  rewrite (unprintable_username_answers_500 sample_config (replies ok_reply) idle unprintable
             [(lit "toString", VNull)] VNull (text "correct horse") (text "alice@example.org")
             eq_refl eq_refl eq_refl eq_refl eq_refl eq_refl).
  reflexivity.
Defined.

Lemma accepted_email_anatomy_witness :
  ∃ i, lit "alice@example.org" !! i = Some 64%N ∧ 1 ≤ i.
Proof.
  destruct (accepted_email_anatomy (lit "alice@example.org") eq_refl)
    as (i & j & Hi & _ & Hpos & _).
  by exists i.
Defined.

Lemma reply_without_envelope_answers_500_witness :
  (run (replies gateway_page) (register_handler sample_config alice) idle).1.1
  = Ok (send 500 (failure (VString (lit "Internal server error")))).
Proof.
  rewrite (reply_without_envelope_answers_500 sample_config (replies gateway_page) idle alice
             (text "alice") (text "correct horse") (text "alice@example.org")
             {| res_status := 200; res_data := gateway_page |} eq_refl eq_refl eq_refl).
  reflexivity.
Defined.

Lemma answer_depends_on_reply_only_witness :
  (run (replies duplicate_reply) (register_handler sample_config alice) idle).1.1
  = (run (replies duplicate_reply) (register_handler other_config alice) (after_call idle)).1.1.
Proof.
  apply (answer_depends_on_reply_only sample_config other_config
           (replies duplicate_reply) (replies duplicate_reply) idle (after_call idle) alice).
  intros u p e. reflexivity.
Defined.

Lemma missing_settings_go_unnoticed_witness :
  ∃ url ps,
    outbound (run (replies ok_reply) (register_handler (read_config ∅) alice) idle).2
    = [(url, ps)]
    ∧ url = lit "undefined/rest/createUser"
    ∧ createUser.u ps = VUndefined.
Proof.
  destruct (missing_settings_go_unnoticed ∅ (replies ok_reply) idle alice
              (text "alice") (text "correct horse") (text "alice@example.org") eq_refl)
    as (url & ps & Hcall & Hurl & Huser & _).
  exists url, ps. split; [exact Hcall|]. split; [by apply Hurl | by apply Huser].
Defined.

Lemma upstream_error_reported_witness :
  (run (replies duplicate_reply) (register_handler sample_config alice) idle).1.1
  = Ok (send 400 (failure (text "Username already exists"))).
Proof.
  rewrite (upstream_error_reported sample_config (replies duplicate_reply) idle alice
             (text "alice") (text "correct horse") (text "alice@example.org")
             {| res_status := 200; res_data := duplicate_reply |}
             (VObject [(lit "status", text "failed");
                       (lit "error", VObject [(lit "code", VNumber (Int 0));
                                              (lit "message", text "Username already exists")])])
             (text "failed")
             (VObject [(lit "code", VNumber (Int 0));
                       (lit "message", text "Username already exists")])
             (text "Username already exists")
             eq_refl eq_refl eq_refl eq_refl eq_refl eq_refl eq_refl).
  reflexivity.
Defined.

Lemma body_is_read_through_three_fields_witness :
  run (replies ok_reply) (register_handler sample_config grasping) idle
  = run (replies ok_reply) (register_handler sample_config alice) idle.
Proof.
  apply (body_is_read_through_three_fields sample_config (replies ok_reply) idle grasping alice);
    reflexivity.
Defined.
